(** * Event-study engine of capitol_shill: a shallow embedding

    Source: [src/analysis/metrics.py] (class [EventStudy], table
    [TICKER_MAP]); further down, [src/enrichment/asset_metadata.py] (class
    [AssetEnricher]) and [src/analysis/portfolio.py] (class
    [PortfolioManager]).

    Modelling conventions.
    - Numbers are idealised floats [fl]: an exact rational, one of the two
      infinities, or NaN.  The special values follow IEEE-754 (x/0, inf-inf,
      0*inf, ...); rounding, overflow and the sign of zero are not modelled.
      Results of arithmetic are kept in lowest terms ([Qred]), which does
      not change their value and keeps evaluation fast.
    - A calendar date is a day number in [Z], counted from 1970-01-01;
      [timedelta(days=n)] is [n].  Trade dates are whole days.  A
      [pd.Timestamp] holds the days -106751 (1677-09-22) to 106751
      (2262-04-11) only, and arithmetic that leaves this range raises
      ([timestamp_add], [timestamp_sub]).
    - A Python string is a [string] of ASCII characters: [strip], [upper],
      [isalnum] and [len] are modelled on the ASCII range, which is where
      ticker symbols live.  On text outside ASCII Python's methods follow
      Unicode and the model says nothing about the code; [is_ascii] marks
      the strings it covers.
    - The price provider ([yf.download(...)['Adj Close']], columns flattened)
      and the regression routine ([LinearRegression().fit]) are external
      collaborators: [calculate_car] takes them as parameters.  Either may
      raise.  Every call to them, and every debug log line, is recorded in a
      trace of events, so that "no fetch was attempted" is a statement about
      the trace.
    - [DataFrame.loc[a:b]] is modelled on a date-ordered index (the provider
      returns its series ordered by date): it keeps exactly the rows whose
      label lies in the closed interval. *)

From Stdlib Require Import Ascii String QArith Qfield.
From stdpp Require Import base list strings gmap.

Local Open Scope Z_scope.
Set Warnings "-notation-for-abbreviation".

(** ** Idealised floating-point values *)

Inductive fl : Type :=
  | Fin (q : Q)
  | PInf
  | NInf
  | NaN.

Definition isnan (x : fl) : bool :=
  match x with NaN => true | _ => false end.

Definition isfinite (x : fl) : bool :=
  match x with Fin _ => true | _ => false end.

Definition inf_of (positive : bool) : fl :=
  if positive then PInf else NInf.

Definition fneg (x : fl) : fl :=
  match x with
  | Fin q => Fin (- q)
  | PInf => NInf
  | NInf => PInf
  | NaN => NaN
  end.

Definition fadd (x y : fl) : fl :=
  match x, y with
  | NaN, _ | _, NaN => NaN
  | Fin a, Fin b => Fin (Qred (a + b))
  | PInf, NInf | NInf, PInf => NaN
  | PInf, _ | _, PInf => PInf
  | NInf, _ | _, NInf => NInf
  end.

Definition fsub (x y : fl) : fl := fadd x (fneg y).

(** Sign of a rational: [Some true] positive, [Some false] negative,
    [None] zero. *)
Definition Qsign (q : Q) : option bool :=
  match (q ?= 0)%Q with
  | Eq => None
  | Gt => Some true
  | Lt => Some false
  end.

Definition fmul (x y : fl) : fl :=
  match x, y with
  | NaN, _ | _, NaN => NaN
  | Fin a, Fin b => Fin (Qred (a * b))
  | Fin a, PInf | PInf, Fin a =>
      match Qsign a with Some s => inf_of s | None => NaN end
  | Fin a, NInf | NInf, Fin a =>
      match Qsign a with Some s => inf_of (negb s) | None => NaN end
  | PInf, PInf | NInf, NInf => PInf
  | PInf, NInf | NInf, PInf => NInf
  end.

Definition fdiv (x y : fl) : fl :=
  match x, y with
  | NaN, _ | _, NaN => NaN
  | Fin a, Fin b =>
      match Qsign b with
      | Some _ => Fin (Qred (a / b))
      | None => match Qsign a with Some s => inf_of s | None => NaN end
      end
  | Fin _, _ => Fin 0
  | PInf, Fin b =>
      match Qsign b with Some false => NInf | _ => PInf end
  | NInf, Fin b =>
      match Qsign b with Some false => PInf | _ => NInf end
  | _, _ => NaN
  end.


(** [Series.sum()] with pandas' default [skipna=True]: NaN entries are
    left out, the rest is added up. *)
Definition nansum (xs : list fl) : fl :=
  fold_left fadd (filter (λ x, isnan x = false) xs) (Fin 0).

(** ** Python string operations used on tickers *)

Definition isspace (c : ascii) : bool :=
  let n := nat_of_ascii c in
  ((9 <=? n)%nat && (n <=? 13)%nat) || ((28 <=? n)%nat && (n <=? 32)%nat).

Fixpoint lstrip (s : string) : string :=
  match s with
  | EmptyString => EmptyString
  | String c s' => if isspace c then lstrip s' else s
  end.

Fixpoint rstrip (s : string) : string :=
  match s with
  | EmptyString => EmptyString
  | String c s' =>
      match rstrip s' with
      | EmptyString => if isspace c then EmptyString else String c EmptyString
      | r => String c r
      end
  end.

Definition strip (s : string) : string := rstrip (lstrip s).

Definition upper_char (c : ascii) : ascii :=
  let n := nat_of_ascii c in
  if ((97 <=? n)%nat && (n <=? 122)%nat) then ascii_of_nat (n - 32) else c.

Fixpoint upper (s : string) : string :=
  match s with
  | EmptyString => EmptyString
  | String c s' => String (upper_char c) (upper s')
  end.

(** [s.replace(old, new)] for one-character [old] and [new]. *)
Fixpoint replace (old new : ascii) (s : string) : string :=
  match s with
  | EmptyString => EmptyString
  | String c s' =>
      String (if Ascii.eqb c old then new else c) (replace old new s')
  end.

(** ** Ticker table and sanitising (metrics.py, lines 12-17 and 33-38) *)

Definition TICKER_MAP : gmap string string :=
  {[ "$BTC" := "BTC-USD"; "VWUSX:US" := "VWUSX"; "XSP" := "SPY" ]}.

(** [dict.get(key, default)]. *)
Definition dict_get (m : gmap string string) (key default : string) : string :=
  match m !! key with Some v => v | None => default end.

(** Line 37. *)
Definition sanitize (ticker : string) : string :=
  replace "."%char "-"%char (replace "/"%char "-"%char (upper (strip ticker))).

(** Lines 37-38: the symbol handed to the price provider. *)
Definition yahoo_symbol (ticker : string) : string :=
  let ticker := sanitize ticker in
  dict_get TICKER_MAP ticker ticker.

(** A value found in the [ticker] column of a trade table. *)
Inductive pyval : Type :=
  | PyStr (s : string)
  | PyNone
  | PyFloat (x : fl)
  | PyInt (n : Z).

(** The literal list of line 33. *)
Definition invalid_tickers : list string := ["--"; "NaN"; ""].

(** Line 33: [not isinstance(ticker, str) or ticker in ['--', 'NaN', '']]. *)
Definition skip_ticker (ticker : pyval) : bool :=
  match ticker with
  | PyStr s => bool_decide (s ∈ invalid_tickers)
  | _ => true
  end.

(** ** Price tables (the part of a pandas DataFrame the engine uses)

    A row is a date label and one cell per column, in column order. *)

Record frame : Type := mkFrame {
  columns : list string;
  rows : list (Z * list fl)
}.

(** [len(df)]. *)
Definition frame_len (df : frame) : nat := length (rows df).

(** [df.empty]: one of the two axes has length zero. *)
Definition frame_empty (df : frame) : bool :=
  match rows df, columns df with
  | [], _ | _, [] => true
  | _, _ => false
  end.

(** [name in df]: membership among the column labels. *)
Definition has_column (df : frame) (name : string) : bool :=
  bool_decide (name ∈ columns df).

Fixpoint index_of (name : string) (names : list string) : nat :=
  match names with
  | [] => 0
  | n :: names' => if String.eqb n name then 0%nat else S (index_of name names')
  end.

Definition cell (i : nat) (cells : list fl) : fl := default NaN (cells !! i).

(** [df[name].values]: the cells of one column, top to bottom. *)
Definition column_values (df : frame) (name : string) : list fl :=
  let i := index_of name (columns df) in
  map (λ r, cell i r.2) (rows df).

(** [df.shift(1)] on the cells: a row of NaN on top, every row moved down
    by one, the last one falling off (the zip below cuts it). *)
Definition shifted_cells (df : frame) : list (list fl) :=
  replicate (length (columns df)) NaN :: map snd (rows df).

Definition pct_cell (cur prev : fl) : fl := fsub (fdiv cur prev) (Fin 1).

(** [df.pct_change(fill_method=None)], that is [df / df.shift(1) - 1]. *)
Definition pct_change (df : frame) : frame :=
  mkFrame (columns df)
    (zip_with (λ r prev, (r.1, zip_with pct_cell r.2 prev))
       (rows df) (shifted_cells df)).

Definition row_notna (r : Z * list fl) : bool :=
  forallb (λ x, negb (isnan x)) r.2.

(** [df.dropna()]: drop every row that holds a NaN in some column. *)
Definition dropna (df : frame) : frame :=
  mkFrame (columns df) (filter (λ r, row_notna r = true) (rows df)).

Definition in_window (lo hi : Z) (r : Z * list fl) : bool :=
  (lo <=? r.1) && (r.1 <=? hi).

(** [df.loc[lo:hi]] on a date-ordered index: both ends included. *)
Definition loc (df : frame) (lo hi : Z) : frame :=
  mkFrame (columns df) (filter (λ r, in_window lo hi r = true) (rows df)).

(** ** Effects: exceptions and the trace of external calls *)

Inductive outcome (A : Type) : Type :=
  | Ok (a : A)
  | Raised (e : string).
Arguments Ok {A} a.
Arguments Raised {A} e.

Inductive event : Type :=
  | EvDownload (symbols : list string) (start end_ : Z)
  | EvFit (X y : list fl)
  | EvDebugError (ticker e : string)
  | EvDebugBatch (n : nat).

(** A computation yields a value or raises, and leaves a trace. *)
Definition M (A : Type) : Type := outcome A * list event.

Definition ret {A} (a : A) : M A := (Ok a, []).

Definition raise {A} (e : string) : M A := (Raised e, []).

Definition emit (ev : event) : M unit := (Ok tt, [ev]).

Definition bind {A B} (m : M A) (k : A → M B) : M B :=
  match m with
  | (Ok a, t) => let '(r, t') := k a in (r, t ++ t')
  | (Raised e, t) => (Raised e, t)
  end.

(** [try: body  except Exception as e: handler(e)]. *)
Definition try_except {A} (body : M A) (handler : string → M A) : M A :=
  match body with
  | (Ok a, t) => (Ok a, t)
  | (Raised e, t) => let '(r, t') := handler e in (r, t ++ t')
  end.

Fixpoint mapM {A B} (f : A → M B) (l : list A) : M (list B) :=
  match l with
  | [] => ret []
  | a :: l' => bind (f a) (λ b, bind (mapM f l') (λ bs, ret (b :: bs)))
  end.

Declare Scope py_scope.
Delimit Scope py_scope with py.
Notation "x <- m ;; k" := (bind m (λ x, k))
  (at level 100, m at next level, right associativity) : py_scope.
Notation "m ;;; k" := (bind m (λ _, k))
  (at level 100, right associativity) : py_scope.

(** ** Timestamps (pandas)

    A [pd.Timestamp] counts nanoseconds from 1970-01-01 in a signed 64-bit
    integer: [Timestamp.min] is 1677-09-21 00:12:43.145224193 and
    [Timestamp.max] is 2262-04-11 23:47:16.854775807, so the whole days it
    holds are the day numbers -106751 to 106751.  [ts + timedelta(days=n)]
    and [ts - timedelta(days=n)] raise when the result is outside this range
    (pandas reports [OutOfBoundsDatetime], or [OverflowError] when the
    timedelta itself is too long); what follows depends only on the fact
    that an exception is raised, not on its name. *)

Definition Timestamp_min_day : Z := -106751.

Definition Timestamp_max_day : Z := 106751.

Definition is_timestamp (d : Z) : bool :=
  (Timestamp_min_day <=? d) && (d <=? Timestamp_max_day).

Definition timestamp_add (ts days : Z) : M Z :=
  if is_timestamp (ts + days) then ret (ts + days)
  else raise "OutOfBoundsDatetime".

Definition timestamp_sub (ts days : Z) : M Z :=
  if is_timestamp (ts - days) then ret (ts - days)
  else raise "OutOfBoundsDatetime".

(** ** scikit-learn's LinearRegression, in exact arithmetic

    [LinearRegression().fit(X, y)] with one regressor and the default
    [fit_intercept=True]: the input must be finite and non-empty (else
    [ValueError]); both arrays are centred on their means, the slope is the
    least-squares solution of the centred system, and the intercept is
    [mean(y) - slope * mean(X)].  The result is the pair ([intercept_],
    [coef_[0]]).

    When every regressor value is the same the centred system is
    rank-deficient: every slope is a least-squares solution, and the one
    the solver returns on binary64 data is decided by rounding in the
    centred regressor (it is 0 only when the centring is exact), which
    exact arithmetic cannot tell.  The model takes that slope from the
    parameter [degenerate_slope], a function of the sample. *)

Definition to_Q (x : fl) : Q :=
  match x with Fin q => q | _ => 0%Q end.

Definition Qsum (l : list Q) : Q :=
  fold_right (λ a s, Qred (a + s)) 0%Q l.

Definition Qlen (l : list Q) : Q := inject_Z (Z.of_nat (length l)).

Definition Qmean (l : list Q) : Q := Qred (Qsum l / Qlen l).

(** Sum of products of deviations from the means. *)
Definition Qcov (xs ys : list Q) : Q :=
  let mx := Qmean xs in
  let my := Qmean ys in
  Qsum (zip_with (λ x y, ((x - mx) * (y - my))%Q) xs ys).

Definition ols_slope (degenerate_slope : list Q → list Q → Q)
    (xs ys : list Q) : Q :=
  if Qeq_bool (Qcov xs xs) 0 then degenerate_slope xs ys
  else Qred (Qcov xs ys / Qcov xs xs).

Definition ols_intercept (degenerate_slope : list Q → list Q → Q)
    (xs ys : list Q) : Q :=
  Qred (Qmean ys - ols_slope degenerate_slope xs ys * Qmean xs).

Definition linear_regression_fit (degenerate_slope : list Q → list Q → Q)
    (X y : list fl) : outcome (fl * fl) :=
  if negb (forallb isfinite X && forallb isfinite y) then
    Raised "ValueError: Input contains NaN or infinity"
  else if negb (length X =? length y)%nat then
    Raised "ValueError: inconsistent numbers of samples"
  else if (length X =? 0)%nat then
    Raised "ValueError: Found array with 0 sample(s)"
  else
    let xs := map to_Q X in
    let ys := map to_Q y in
    Ok (Fin (ols_intercept degenerate_slope xs ys),
        Fin (ols_slope degenerate_slope xs ys)).

(** ** Trade tables

    A row of the trade table holds the two fields the engine reads and the
    rest of the disclosure; the table is its rows and the [car_30d] column
    when it has one. *)

Record trade : Type := mkTrade {
  ticker : pyval;
  transaction_date : option Z;
  disclosure : string
}.

Record dataframe : Type := mkDataframe {
  df_rows : list trade;
  car_30d : option (list (option fl))
}.

(** ** The engine (metrics.py, class EventStudy) *)

Section EventStudy.

(** [yf.download(symbols, start, end, ...)['Adj Close']] with the column
    index flattened (lines 47-57). *)
Variable download : list string → Z → Z → outcome frame.

(** [LinearRegression().fit(X, y)], giving ([intercept_], [coef_[0]]). *)
Variable fit : list fl → list fl → outcome (fl * fl).

(** [self.benchmark]. *)
Variable benchmark : string.

Definition call_download (symbols : list string) (start end_ : Z) : M frame :=
  (download symbols start end_, [EvDownload symbols start end_]).

Definition call_fit (X y : list fl) : M (fl * fl) :=
  (fit X y, [EvFit X y]).

(** Lines 83-98: the event window and the sum of abnormal returns. *)
Definition event_car (returns : frame) (ticker : string)
    (trade_date evt_end : Z) (alpha beta : fl) : option fl :=
  let evt_data := loc returns trade_date evt_end in
  if frame_empty evt_data then None
  else
    let actual_returns := column_values evt_data ticker in
    let market_returns := column_values evt_data benchmark in
    let expected_returns := map (λ m, fadd alpha (fmul beta m)) market_returns in
    let abnormal_returns := zip_with fsub actual_returns expected_returns in
    let car := nansum abnormal_returns in
    Some car.

(** Lines 66-80: the estimation window and the market-model fit;
    [None] is the early [return None] of line 71. *)
Definition market_model (returns : frame) (ticker : string)
    (est_start est_end : Z) : M (option (fl * fl)) :=
  let est_data := loc returns est_start est_end in
  if frame_empty est_data
     || negb (has_column est_data benchmark)
     || negb (has_column est_data ticker)
  then ret None
  else
    let X := column_values est_data benchmark in
    let y := column_values est_data ticker in
    (model <- call_fit X y ;;
     let alpha := model.1 in
     let beta := model.2 in
     ret (Some (alpha, beta)))%py.

(** Lines 47-98: the body of the [try] block, [end_] being the value of
    [evt_end + timedelta(days=5)] of line 50. *)
Definition car_body (ticker : string)
    (trade_date est_start est_end evt_end end_ : Z) : M (option fl) :=
  (data <- call_download [ticker; benchmark] est_start end_ ;;
   let returns := dropna (pct_change data) in
   if (frame_len returns <? 50)%nat then ret None
   else
     model <- market_model returns ticker est_start est_end ;;
     match model with
     | None => ret None
     | Some (alpha, beta) =>
         ret (event_car returns ticker trade_date evt_end alpha beta)
     end)%py.

(** Lines 24-101.  [trade_date] is [None] when [pd.isna] holds of it.
    The three dates of lines 41-43 are computed before the [try] block is
    entered, so an exception raised there leaves [calculate_car]; the end
    of the fetch (line 50) is computed inside it. *)
Definition calculate_car (ticker : pyval) (trade_date : option Z)
    (window_days : Z) : M (option fl) :=
  match trade_date with
  | None => ret None
  | Some trade_date =>
      match ticker with
      | PyStr raw =>
          if skip_ticker ticker then ret None
          else
            let ticker := sanitize raw in
            let ticker := dict_get TICKER_MAP ticker ticker in
            (est_start <- timestamp_sub trade_date 200 ;;
             est_end <- timestamp_sub trade_date 10 ;;
             evt_end <- timestamp_add trade_date window_days ;;
             try_except
               (end_ <- timestamp_add evt_end 5 ;;
                car_body ticker trade_date est_start est_end evt_end end_)
               (λ e, (emit (EvDebugError ticker e) ;;; ret None)))%py
      | _ => ret None
      end
  end.

(** Lines 103-116.  An exception that leaves [calculate_car] leaves
    [df.apply] and [analyze_batch] with it: the remaining rows are not
    visited and the column is not assigned. *)
Definition analyze_batch (df : dataframe) : M dataframe :=
  match df_rows df with
  | [] => ret df
  | _ =>
      (emit (EvDebugBatch (length (df_rows df))) ;;;
       cars <- mapM (λ row, calculate_car (ticker row) (transaction_date row) 30)
                 (df_rows df) ;;
       ret (mkDataframe (df_rows df) (Some cars)))%py
  end.

End EventStudy.

(** The three dates of lines 41-43 are Timestamps: the estimation window
    and the end of the event window can be computed. *)
Definition window_dates_ok (trade_date window_days : Z) : bool :=
  is_timestamp (trade_date - 200) && is_timestamp (trade_date - 10)
  && is_timestamp (trade_date + window_days).

(** So is the end of the fetch of line 50: the provider can be asked. *)
Definition window_in_bounds (trade_date window_days : Z) : bool :=
  window_dates_ok trade_date window_days
  && is_timestamp (trade_date + window_days + 5).

(** The trades on which [calculate_car] raises: they pass lines 29-34 and
    one of the dates of lines 41-43 is no Timestamp. *)
Definition escapes (tk : pyval) (date : option Z) (w : Z) : bool :=
  match date with
  | Some d => negb (skip_ticker tk) && negb (window_dates_ok d w)
  | None => false
  end.

(** The slope of a rank-deficient fit when the centring is exact: the
    minimum-norm solution. *)
Definition minimum_norm (xs ys : list Q) : Q := 0%Q.

(** ** The statements of the specification

    The definitions of this part follow the wording of the specification;
    the theorems compare them with the engine above. *)

(** The value a call returns, [None] standing for null. *)
Definition returned (m : M (option fl)) : option fl :=
  match m.1 with
  | Ok v => v
  | Raised _ => None
  end.

(** The "Unusable" symbol of section 4.1: empty, a known placeholder
    token, starting with the currency-prefix marker, or starting with a
    digit. *)
Definition is_digit (c : ascii) : bool :=
  let n := nat_of_ascii c in (48 <=? n)%nat && (n <=? 57)%nat.

Definition unusable (symbol : string) : bool :=
  match symbol with
  | EmptyString => true
  | String c _ =>
      bool_decide (symbol ∈ ["--"; "NaN"])
      || Ascii.eqb c "$"%char
      || is_digit c
  end.

(** The batch property as section 6 words it: same rows in the same
    order, and a [car_30d] field with one entry per row. *)
Definition batch_augmented (df : dataframe) (m : M dataframe) : Prop :=
  ∃ out cars t,
    m = (Ok out, t) ∧ df_rows out = df_rows df ∧
    car_30d out = Some cars ∧ length cars = length (df_rows df).

(** A table is rectangular when it has at least one column and every row
    has one cell per column. *)
Definition rectangular (df : frame) : bool :=
  negb (length (columns df) =? 0)%nat
  && forallb (λ r, (length r.2 =? length (columns df))%nat) (rows df).

(** The return of column [name] on a row. *)
Definition return_of (df : frame) (name : string) (r : Z * list fl) : fl :=
  cell (index_of name (columns df)) r.2.

(** The rows of the return table dated in the closed estimation window
    [[trade_date - 200, trade_date - 10]], and in the closed event window
    [[trade_date, trade_date + horizon_days]]. *)
Definition estimation_window_rows (returns : frame) (trade_date : Z)
    : list (Z * list fl) :=
  filter (λ r, trade_date - 200 ≤ r.1 ≤ trade_date - 10) (rows returns).

Definition event_window_rows (returns : frame) (trade_date horizon_days : Z)
    : list (Z * list fl) :=
  filter (λ r, trade_date ≤ r.1 ≤ trade_date + horizon_days) (rows returns).

(** Both columns hold finite numbers on every row dated in [[lo, hi]]. *)
Definition finite_between (returns : frame) (ticker benchmark : string)
    (lo hi : Z) : bool :=
  forallb (λ r, isfinite (return_of returns ticker r)
                && isfinite (return_of returns benchmark r))
          (rows (loc returns lo hi)).

(** Asset and benchmark both return [c] on every row dated in [[lo, hi]]. *)
Definition constant_between (returns : frame) (ticker benchmark : string)
    (lo hi : Z) (c : Q) : bool :=
  forallb (λ r, match return_of returns ticker r,
                      return_of returns benchmark r with
                | Fin a, Fin m => Qeq_bool a c && Qeq_bool m c
                | _, _ => false
                end)
          (rows (loc returns lo hi)).

(** The plain, unweighted sum of a list of rationals, and the mean. *)
Definition plain_sum (l : list Q) : Q := fold_right Qplus 0%Q l.

Definition plain_mean (l : list Q) : Q := (plain_sum l / Qlen l)%Q.

(** The abnormal return of one day (section 4.5): actual minus expected,
    the expected return being [alpha + beta * benchmark]. *)
Definition abnormal_return (alpha beta actual market : Q) : Q :=
  (actual - (alpha + beta * market))%Q.

(** CAR: the plain sum of the abnormal returns over the event window. *)
Definition car_sum (returns : frame) (ticker benchmark : string)
    (trade_date horizon_days : Z) (alpha beta : Q) : Q :=
  plain_sum
    (map (λ r, abnormal_return alpha beta
                 (to_Q (return_of returns ticker r))
                 (to_Q (return_of returns benchmark r)))
         (event_window_rows returns trade_date horizon_days)).

(** The residual sum of squares of the line [a + b * x] through the
    points ([xs], [ys]). *)
Definition sse (a b : Q) (xs ys : list Q) : Q :=
  plain_sum (zip_with (λ x y, ((y - (a + b * x)) * (y - (a + b * x)))%Q) xs ys).

(** The textbook closed form of simple linear regression. *)
Definition closed_form_beta (xs ys : list Q) : Q :=
  (plain_sum (zip_with (λ x y, (x - plain_mean xs) * (y - plain_mean ys)) xs ys)
   / plain_sum (zip_with (λ x x', (x - plain_mean xs) * (x' - plain_mean xs)) xs xs))%Q.

Definition closed_form_alpha (xs ys : list Q) : Q :=
  (plain_mean ys - closed_form_beta xs ys * plain_mean xs)%Q.

(** Sum of [f] over a sample of points. *)
Definition psum (ps : list (Q * Q)) (f : Q * Q → Q) : Q := plain_sum (map f ps).

(** ** Sample inputs *)

(** A price table of [n] consecutive days from [first_day], asset in the
    first column and benchmark in the second. *)
Definition demo_prices (first_day : Z) (n : nat) : list (Z * list fl) :=
  map (λ i, (first_day + Z.of_nat i,
             [Fin (inject_Z (100 + Z.of_nat (i mod 3)));
              Fin (inject_Z (50 + Z.of_nat (i mod 2)))]))
      (seq 0 n).

(** A provider that answers every request with sixty trading days ending
    sixteen days before the requested end. *)
Definition demo_download (symbols : list string) (start end_ : Z) : outcome frame :=
  Ok (mkFrame symbols (demo_prices (end_ - 75) 60)).

(** A provider that only has ten days of history. *)
Definition short_download (symbols : list string) (start end_ : Z) : outcome frame :=
  Ok (mkFrame symbols (demo_prices (end_ - 75) 10)).

(** A provider whose sixty days start five days before the trade, so
    that nothing falls in the estimation window. *)
Definition late_download (symbols : list string) (start end_ : Z) : outcome frame :=
  Ok (mkFrame symbols (demo_prices (end_ - 40) 60)).

(** A provider that is down, and a regression routine that fails. *)
Definition failing_download (symbols : list string) (start end_ : Z) : outcome frame :=
  Raised "ConnectionError".

Definition failing_fit (X y : list fl) : outcome (fl * fl) :=
  Raised "LinAlgError".

(** A regression routine that always answers alpha = 1/1000, beta = 1/2. *)
Definition demo_fit (X y : list fl) : outcome (fl * fl) :=
  Ok (Fin (1 # 1000), Fin (1 # 2)).


(** Prices that do not move: the asset at 100 and the benchmark at 50 on
    every day, so that every return is exactly 0. *)
Definition flat_prices (first_day : Z) (n : nat) : list (Z * list fl) :=
  map (λ i, (first_day + Z.of_nat i, [Fin 100; Fin 50])) (seq 0 n).

Definition flat_download (symbols : list string) (start end_ : Z) : outcome frame :=
  Ok (mkFrame symbols (flat_prices (end_ - 75) 60)).

(** Three trades, the second dated 1677-12-01, less than 200 days after
    the first day a Timestamp can hold. *)
Definition early_trades : dataframe :=
  mkDataframe
    [mkTrade (PyStr "AAPL") (Some 19000) "purchase";
     mkTrade (PyStr "AAPL") (Some (-106681)) "purchase";
     mkTrade (PyStr "MSFT") (Some 19001) "sale"] None.

(** ** Further definitions used to state properties of the code *)

(** The characters of a string, and a string rewritten character by
    character. *)
Fixpoint chars (s : string) : list ascii :=
  match s with
  | EmptyString => []
  | String c s' => c :: chars s'
  end.

Fixpoint string_map (f : ascii → ascii) (s : string) : string :=
  match s with
  | EmptyString => EmptyString
  | String c s' => String (f c) (string_map f s')
  end.

(** What line 37 of metrics.py does to one character. *)
Definition sanitize_char (c : ascii) : ascii :=
  let c := upper_char c in
  let c := if Ascii.eqb c "/" then "-"%char else c in
  if Ascii.eqb c "." then "-"%char else c.

Definition is_lower (c : ascii) : bool :=
  let n := nat_of_ascii c in (97 <=? n)%nat && (n <=? 122)%nat.

(** The requests sent to the price provider, in the order of a trace. *)
Definition downloads (t : list event) : list (list string) :=
  omap (λ ev, match ev with EvDownload symbols _ _ => Some symbols | _ => None end) t.

(** The symbol a row is evaluated under: none when line 29 or line 33
    returns early. *)
Definition evaluated_symbol (row : trade) : option string :=
  match transaction_date row, ticker row with
  | Some _, PyStr raw =>
      if skip_ticker (PyStr raw) then None else Some (yahoo_symbol raw)
  | _, _ => None
  end.

(** What can follow the download in the trace of one evaluation that
    returns [v]: nothing, a debug line, one fit, or one fit and a debug
    line; with a debug line the result is null. *)
Definition after_download (sym : string) (v : option fl) (t : list event) : Prop :=
  t = [] ∨ (∃ e, t = [EvDebugError sym e] ∧ v = None) ∨
  (∃ X y, t = [EvFit X y]) ∨
  (∃ X y e, t = [EvFit X y; EvDebugError sym e] ∧ v = None).

(** What one evaluation of a row can be: null without effect when line
    29 or 33 returns early; an exception without effect when a date of
    lines 41-43 is no Timestamp; null and a debug line when only the end
    of the fetch is none; otherwise the download for the estimation start
    and the end of the fetch, followed as [after_download] says. *)
Definition evaluation_shape (benchmark : string) (row : trade) (w : Z)
    (run : M (option fl)) : Prop :=
  match evaluated_symbol row, transaction_date row with
  | Some sym, Some d =>
      if window_dates_ok d w then
        if is_timestamp (d + w + 5) then
          ∃ v rest,
            run = (Ok v, EvDownload [sym; benchmark] (d - 200) (d + w + 5)
                           :: rest) ∧
            after_download sym v rest
        else ∃ e, run = (Ok None, [EvDebugError sym e])
      else ∃ e, run = (Raised e, [])
  | _, _ => run = (Ok None, [])
  end.

(** The row makes [calculate_car] raise, for the horizon of 30 days that
    [analyze_batch] uses. *)
Definition row_raises (row : trade) : bool :=
  escapes (ticker row) (transaction_date row) 30.

(** The rows that [df.apply] evaluates to the end: those before the first
    row that raises. *)
Fixpoint completed_rows (l : list trade) : list trade :=
  match l with
  | [] => []
  | row :: l' => if row_raises row then [] else row :: completed_rows l'
  end.

(** The request that the evaluation of a row sends to the provider, if
    any. *)
Definition requested (benchmark : string) (row : trade) : option (list string) :=
  match evaluated_symbol row, transaction_date row with
  | Some sym, Some d =>
      if is_timestamp (d + 30 + 5) then Some [sym; benchmark] else None
  | _, _ => None
  end.

(** Asset and benchmark have the same finite return on every row dated in
    [[lo, hi]]. *)
Definition same_between (returns : frame) (ticker benchmark : string)
    (lo hi : Z) : bool :=
  forallb (λ r, match return_of returns ticker r,
                      return_of returns benchmark r with
                | Fin a, Fin m => Qeq_bool a m
                | _, _ => false
                end)
          (rows (loc returns lo hi)).

(** The demo provider with the asset price of one day inside the gap
    between the two windows (five days before the trade) set to 250. *)
Definition bumped_download (symbols : list string) (start end_ : Z) : outcome frame :=
  Ok (mkFrame symbols
        (map (λ r, if (r.1 =? end_ - 40)%Z
                   then (r.1, [Fin 250; cell 1 r.2]) else r)
             (demo_prices (end_ - 75) 60))).

(** A provider whose benchmark is always twice the asset price, so that
    both have the same returns. *)
Definition tracking_download (symbols : list string) (start end_ : Z) : outcome frame :=
  Ok (mkFrame symbols
        (map (λ i, (end_ - 75 + Z.of_nat i,
                    [Fin (inject_Z (100 + Z.of_nat (i mod 3)));
                     Fin (inject_Z (200 + 2 * Z.of_nat (i mod 3)))]))
             (seq 0 60))).

(** ** The metadata enricher (src/enrichment/asset_metadata.py)

    The dict [self._cache] is threaded through the calls as a finite map;
    [yf.Ticker(ticker).info] is an external collaborator that may raise,
    and every call to it is recorded, by symbol, in a trace. *)

(** [s.startswith(c)] for a one-character prefix. *)
Definition startswith (c : ascii) (s : string) : bool :=
  match s with
  | String c' _ => Ascii.eqb c' c
  | EmptyString => false
  end.

Fixpoint is_prefix (p s : string) : bool :=
  match p, s with
  | EmptyString, _ => true
  | String a p', String b s' => Ascii.eqb a b && is_prefix p' s'
  | String _ _, EmptyString => false
  end.

(** [sub in s]. *)
Fixpoint contains (sub s : string) : bool :=
  is_prefix sub s
  || match s with
     | EmptyString => false
     | String _ s' => contains sub s'
     end.

(** The dict built at lines 66-71 and at lines 81-86. *)
Record metadata : Type := mkMetadata {
  name : pyval;
  sector : pyval;
  industry : pyval;
  market_cap : pyval
}.

(** Lines 80-86. *)
Definition _default_metadata : metadata :=
  mkMetadata (PyStr "Unknown") (PyStr "Unknown") (PyStr "Unknown") (PyInt 0).

(** [info.get(key, default)]. *)
Definition info_get (info : gmap string pyval) (key : string) (default : pyval)
    : pyval :=
  match info !! key with Some v => v | None => default end.

(** Line 47: the test on the sanitised ticker. *)
Definition crypto_or_bond (ticker : string) : bool :=
  startswith "$" ticker
  || ((0 <? String.length ticker)%nat
      && match ticker with String c _ => is_digit c | EmptyString => false end).

(** Line 55. *)
Definition invalid_symbol (ticker : string) : bool :=
  bool_decide (ticker = "") || bool_decide (ticker = "---")
  || contains "UNKNOWN" ticker.

Section AssetEnricher.

(** [yf.Ticker(ticker).info] (lines 61-63). *)
Variable ticker_info : string → outcome (gmap string pyval).

(** Lines 33-78.  The result is the metadata, the cache after the call
    and the symbols looked up. *)
Definition get_asset_info (cache : gmap string metadata) (ticker : pyval)
    : metadata * gmap string metadata * list string :=
  match ticker with
  | PyStr raw =>
      let ticker := upper (strip raw) in
      let ticker := replace "." "-" (replace "/" "-" ticker) in
      if crypto_or_bond ticker then (_default_metadata, cache, [])
      else
        match cache !! ticker with
        | Some cached => (cached, cache, [])
        | None =>
            if invalid_symbol ticker then (_default_metadata, cache, [])
            else
              match ticker_info ticker with
              | Ok info =>
                  let metadata :=
                    mkMetadata (info_get info "shortName" (PyStr "Unknown"))
                               (info_get info "sector" (PyStr "Unknown"))
                               (info_get info "industry" (PyStr "Unknown"))
                               (info_get info "marketCap" (PyInt 0)) in
                  (metadata, <[ticker := metadata]> cache, [ticker])
              | Raised _ => (_default_metadata, cache, [ticker])
              end
        end
  | _ => (_default_metadata, cache, [])
  end.

(** [column.apply(self.get_asset_info)]: the calls are made top to bottom,
    each one on the cache the previous one left. *)
Fixpoint apply_get_asset_info (cache : gmap string metadata)
    (column : list pyval) : list metadata * gmap string metadata * list string :=
  match column with
  | [] => ([], cache, [])
  | v :: column' =>
      let '(m, cache1, t1) := get_asset_info cache v in
      let '(ms, cache2, t2) := apply_get_asset_info cache1 column' in
      (m :: ms, cache2, t1 ++ t2)
  end.

End AssetEnricher.

(** A trade table for the enricher: the length of the index and the
    columns, each a label and its cells.  A cell is a Python value; all the
    enricher asks of it is whether it is a string. *)
Record table : Type := mkTable {
  index_len : nat;
  table_columns : list (string * list pyval)
}.

(** [df.empty]. *)
Definition table_empty (df : table) : bool :=
  (index_len df =? 0)%nat
  || match table_columns df with [] => true | _ => false end.

(** [df[label]] on a table whose labels are distinct; [None] is a
    KeyError. *)
Fixpoint lookup_column (label : string) (cols : list (string * list pyval))
    : option (list pyval) :=
  match cols with
  | [] => None
  | (l, cells) :: cols' =>
      if String.eqb l label then Some cells else lookup_column label cols'
  end.

Definition table_get (df : table) (label : string) : option (list pyval) :=
  lookup_column label (table_columns df).

(** Every column has one cell per index entry, and no label occurs
    twice. *)
Definition table_wf (df : table) : Prop :=
  NoDup (map fst (table_columns df)) ∧
  Forall (λ c, length c.2 = index_len df) (table_columns df).

(** The columns of [pd.DataFrame(meta_list.tolist())]. *)
Definition meta_labels : list string :=
  ["name"; "sector"; "industry"; "market_cap"].

Definition meta_columns (metas : list metadata) : list (string * list pyval) :=
  [("name", map name metas); ("sector", map sector metas);
   ("industry", map industry metas); ("market_cap", map market_cap metas)].

Section EnrichDataframe.

Variable ticker_info : string → outcome (gmap string pyval).

(** Lines 88-114. *)
Definition enrich_dataframe (cache : gmap string metadata) (df : table)
    (ticker_col : string)
    : outcome table * gmap string metadata * list string :=
  if table_empty df then (Ok df, cache, [])
  else
    match table_get df ticker_col with
    | None => (Raised "KeyError", cache, [])
    | Some column =>
        let '(meta_list, cache', t) :=
          apply_get_asset_info ticker_info cache column in
        let meta_df := meta_columns meta_list in
        let kept :=
          filter (λ c, c.1 ∉ meta_labels) (table_columns df) in
        (Ok (mkTable (index_len df) (kept ++ meta_df)), cache', t)
    end.

End EnrichDataframe.

(** A sanitised ticker that the enricher refuses, at line 47 or at line
    55, and a ticker value that it refuses. *)
Definition rejected (symbol : string) : bool :=
  crypto_or_bond symbol || invalid_symbol symbol.

Definition rejected_ticker (ticker : pyval) : bool :=
  match ticker with
  | PyStr raw => rejected (sanitize raw)
  | _ => true
  end.

(** A provider of company records that knows three symbols, one of them
    without a sector, and fails on everything else. *)
Definition demo_info (symbol : string) : outcome (gmap string pyval) :=
  if String.eqb symbol "AAPL" then
    Ok {[ "shortName" := PyStr "Apple Inc."; "sector" := PyStr "Technology";
          "industry" := PyStr "Consumer Electronics";
          "marketCap" := PyInt 3000000000000 ]}
  else if String.eqb symbol "BRK-B" then
    Ok {[ "shortName" := PyStr "Berkshire Hathaway Inc. New";
          "sector" := PyStr "Financial Services";
          "industry" := PyStr "Insurance - Diversified";
          "marketCap" := PyInt 900000000000 ]}
  else if String.eqb symbol "SPY" then
    Ok {[ "shortName" := PyStr "SPDR S&P 500" ]}
  else Raised "HTTPError 404".

(** Whether the lookup of a symbol succeeds, and the symbols of a trace
    whose lookup did. *)
Definition lookup_succeeds (ticker_info : string → outcome (gmap string pyval))
    (symbol : string) : bool :=
  match ticker_info symbol with Ok _ => true | Raised _ => false end.

Definition successes (ticker_info : string → outcome (gmap string pyval))
    (t : list string) : list string :=
  filter (λ s, lookup_succeeds ticker_info s = true) t.

(** A small trade table that already has a [sector] column. *)
Definition demo_table : table :=
  mkTable 4
    [("ticker", [PyStr "aapl"; PyStr "brk/b"; PyStr "AAPL "; PyStr "zzzz"]);
     ("sector", [PyNone; PyNone; PyNone; PyNone]);
     ("amount", [PyInt 1000; PyInt 15000; PyInt 50000; PyInt 1000])].

(** No refused symbol is a key of the cache. *)
Definition cache_valid (cache : gmap string metadata) : Prop :=
  ∀ k m, cache !! k = Some m → rejected k = false.

(** ** The portfolio manager (src/analysis/portfolio.py) *)

(** [s.replace(c, '')]. *)
Fixpoint remove_char (c : ascii) (s : string) : string :=
  match s with
  | EmptyString => EmptyString
  | String c' s' =>
      if Ascii.eqb c' c then remove_char c s' else String c' (remove_char c s')
  end.

Definition is_upper (c : ascii) : bool :=
  let n := nat_of_ascii c in (65 <=? n)%nat && (n <=? 90)%nat.

Definition is_alnum (c : ascii) : bool := is_digit c || is_upper c || is_lower c.

(** [s.isalnum()]: at least one character, all of them letters or
    digits. *)
Definition isalnum (s : string) : bool :=
  match s with
  | EmptyString => false
  | _ => forallb is_alnum (chars s)
  end.

(** Lines 15-28: the body of the loop for one entry; [None] is
    [continue]. *)
Definition clean_ticker (t : pyval) : option string :=
  match t with
  | PyStr t =>
      let t := upper (strip t) in
      if (String.length t <=? 1)%nat || bool_decide (t ∈ ["--"; "---"; "NaN"])
      then None
      else
        let core_chars :=
          remove_char "-" (remove_char "/" (remove_char "." t)) in
        if negb (isalnum core_chars) then None
        else
          let sanitized := replace "." "-" (replace "/" "-" t) in
          Some sanitized
  | _ => None
  end.

(** Lines 13-30: [cleaned_tickers] after the loop, and [self.tickers]; the
    order of [list(set(...))] is not determined, so the result is the
    set. *)
Definition cleaned_tickers (tickers : list pyval) : list string :=
  omap clean_ticker tickers.

Definition PortfolioManager_tickers (tickers : list pyval) : gset string :=
  list_to_set (cleaned_tickers tickers).

(** The entries that the model covers: anything that is not a string, and
    the strings of ASCII characters. *)
Definition is_ascii (s : string) : bool :=
  forallb (λ c, (nat_of_ascii c <? 128)%nat) (chars s).

Definition ascii_value (v : pyval) : bool :=
  match v with
  | PyStr s => is_ascii s
  | _ => true
  end.

(** A character that a portfolio symbol can hold, and a symbol made of
    such characters, at least two of them, not all hyphens. *)
Definition symbol_char (c : ascii) : bool :=
  is_digit c || is_upper c || Ascii.eqb c "-".

Definition portfolio_symbol (s : string) : bool :=
  (2 <=? String.length s)%nat
  && forallb symbol_char (chars s)
  && existsb (λ c, is_digit c || is_upper c) (chars s).

(** The price table of [optimize_portfolio], column by column: the dates
    of the index and one series of prices per symbol. *)
Record price_table : Type := mkPriceTable {
  pt_dates : list Z;
  pt_series : list (string * list fl)
}.

Definition count_notna (prices : list fl) : nat :=
  length (filter (λ x, isnan x = false) prices).

(** [df.dropna(axis=1, how='all')]: drop the series that hold nothing but
    NaN. *)
Definition dropna_all (df : price_table) : price_table :=
  mkPriceTable (pt_dates df)
    (filter (λ c, count_notna c.2 ≠ 0%nat) (pt_series df)).

(** [df.dropna(axis=1, thresh=k)]: keep the series with at least [k]
    prices. *)
Definition dropna_thresh (k : nat) (df : price_table) : price_table :=
  mkPriceTable (pt_dates df)
    (filter (λ c, (k ≤ count_notna c.2)%nat) (pt_series df)).

(** [int(len(df) * 0.8)].  The double nearest to 0.8 lies just above 0.8
    and a product is rounded to the nearest double, so for a table of fewer
    than 2^50 rows the product is never below a whole number that [0.8 * n]
    reaches and never reaches one that [0.8 * n] does not: the truncation
    is the integer part of [4 * n / 5]. *)
Definition thresh_of (n : nat) : nat := (4 * n / 5)%nat.

Inductive pf_event : Type :=
  | PfWarning (msg : string)
  | PfInfo (n : nat)
  | PfDownload (tickers : list string)
  | PfOptimise (df : price_table)
  | PfError (e : string).

Section OptimizePortfolio.

(** The dict returned at lines 64-69, as the optimiser produced it. *)
Variable performance : Type.

(** [yf.download(self.tickers, period="2y", ...)['Adj Close']], as a
    frame (lines 41-44). *)
Variable download_2y : list string → outcome price_table.

(** Lines 57-62: the expected returns, the covariance, the efficient
    frontier and its performance. *)
Variable max_sharpe : price_table → outcome performance.

(** Lines 32-75, on [self.tickers]. *)
Definition optimize_portfolio (tickers : gset string)
    : option performance * list pf_event :=
  match elements tickers with
  | [] => (None, [PfWarning "No valid tickers provided for optimization."])
  | symbols =>
      let started := [PfInfo (length symbols); PfDownload symbols] in
      match download_2y symbols with
      | Raised e => (None, started ++ [PfError e])
      | Ok df =>
          let df := dropna_all df in
          let df := dropna_thresh (thresh_of (length (pt_dates df))) df in
          match pt_dates df, pt_series df with
          | [], _ | _, [] | _, [_] =>
              (None, started ++ [PfWarning "Insufficient data (needs at least 2 stocks with 2y history)."])
          | _, _ =>
              match max_sharpe df with
              | Ok result => (Some result, started ++ [PfOptimise df])
              | Raised e => (None, started ++ [PfOptimise df; PfError e])
              end
          end
      end
  end.

End OptimizePortfolio.

(** ** Properties of the effect layer *)

Lemma bind_ok {A B} (a : A) (t : list event) (k : A → M B) :
  bind (Ok a, t) k = ((k a).1, t ++ (k a).2).
Proof. unfold bind. by destruct (k a). Qed.

Lemma bind_raised {A B} (e : string) (t : list event) (k : A → M B) :
  bind (Raised e, t) k = (Raised e, t).
Proof. reflexivity. Qed.

Lemma bind_ret {A B} (a : A) (k : A → M B) : bind (ret a) k = k a.
Proof. unfold bind, ret. by destruct (k a). Qed.

(** ** Timestamp arithmetic (lines 41-43 and 50) *)

Lemma timestamp_add_ok (ts days : Z) :
  is_timestamp (ts + days) = true → timestamp_add ts days = ret (ts + days).
Proof. intros H. unfold timestamp_add. by rewrite H. Qed.

Lemma timestamp_sub_ok (ts days : Z) :
  is_timestamp (ts - days) = true → timestamp_sub ts days = ret (ts - days).
Proof. intros H. unfold timestamp_sub. by rewrite H. Qed.

Lemma window_dates_ok_spec (d w : Z) :
  window_dates_ok d w = true ↔
  is_timestamp (d - 200) = true ∧ is_timestamp (d - 10) = true ∧
  is_timestamp (d + w) = true.
Proof. unfold window_dates_ok. rewrite !andb_true_iff. tauto. Qed.

Lemma window_in_bounds_spec (d w : Z) :
  window_in_bounds d w = true ↔
  window_dates_ok d w = true ∧ is_timestamp (d + w + 5) = true.
Proof. unfold window_in_bounds. by rewrite andb_true_iff. Qed.

(** ** Validation (lines 29-38) *)

Section Validation.

Variable download : list string → Z → Z → outcome frame.
Variable fit : list fl → list fl → outcome (fl * fl).
Variable benchmark : string.

Local Notation car := (calculate_car download fit benchmark).
Local Notation body := (car_body download fit benchmark).
Local Notation handler sym :=
  (λ e, bind (emit (EvDebugError sym e)) (λ _, ret (@None fl))).

Lemma skip_ticker_spec (tk : pyval) :
  skip_ticker tk = true ↔
  (∀ s, tk ≠ PyStr s) ∨ tk = PyStr "--" ∨ tk = PyStr "NaN" ∨ tk = PyStr "".
Proof.
  destruct tk as [s| | |]; simpl.
  - rewrite bool_decide_eq_true. unfold invalid_tickers.
    rewrite !elem_of_cons, elem_of_nil. split.
    + intros [->|[->|[->|[]]]]; auto.
    + intros [H|[H|[H|H]]]; [by destruct (H s) | | | ]; injection H as ->; auto.
  - split; [left; discriminate | done].
  - split; [left; discriminate | done].
  - split; [left; discriminate | done].
Qed.

Lemma calculate_car_skipped tk date w :
  date = None ∨ skip_ticker tk = true →
  car tk date w = (Ok None, []).
Proof.
  intros [->|H]; [reflexivity|].
  unfold calculate_car. destruct date; [|reflexivity].
  destruct tk; try reflexivity. by rewrite H.
Qed.

(** A date of lines 41-43 that is no Timestamp: the exception is raised
    before the [try] block and leaves [calculate_car], with no effect. *)
Lemma calculate_car_out_of_bounds raw d w :
  skip_ticker (PyStr raw) = false →
  window_dates_ok d w = false →
  ∃ e, car (PyStr raw) (Some d) w = (Raised e, []).
Proof.
  intros Hraw Hw. unfold calculate_car. rewrite Hraw.
  unfold window_dates_ok in Hw. unfold timestamp_sub, timestamp_add.
  destruct (is_timestamp (d - 200)); [|by eexists].
  rewrite bind_ret.
  destruct (is_timestamp (d - 10)); [|by eexists].
  rewrite bind_ret.
  destruct (is_timestamp (d + w)); [discriminate|by eexists].
Qed.

(** The three dates are Timestamps: the [try] block is entered. *)
Lemma calculate_car_dated raw d w :
  skip_ticker (PyStr raw) = false →
  window_dates_ok d w = true →
  car (PyStr raw) (Some d) w =
  try_except
    (bind (timestamp_add (d + w) 5)
       (λ end_, body (yahoo_symbol raw) d (d - 200) (d - 10) (d + w) end_))
    (handler (yahoo_symbol raw)).
Proof.
  intros Hraw Hw. apply window_dates_ok_spec in Hw as (H1 & H2 & H3).
  unfold calculate_car. rewrite Hraw.
  rewrite (timestamp_sub_ok _ _ H1), bind_ret.
  rewrite (timestamp_sub_ok _ _ H2), bind_ret.
  rewrite (timestamp_add_ok _ _ H3), bind_ret.
  reflexivity.
Qed.

(** The end of the fetch is no Timestamp: the exception is raised inside
    the [try] block, so the result is null, with a debug line and no
    download. *)
Lemma calculate_car_no_fetch_end raw d w :
  skip_ticker (PyStr raw) = false →
  window_dates_ok d w = true →
  is_timestamp (d + w + 5) = false →
  ∃ e, car (PyStr raw) (Some d) w =
       (Ok None, [EvDebugError (yahoo_symbol raw) e]).
Proof.
  intros Hraw Hw H5. rewrite calculate_car_dated by done.
  unfold timestamp_add. rewrite H5. by eexists.
Qed.

Lemma calculate_car_valid raw d w :
  skip_ticker (PyStr raw) = false →
  window_in_bounds d w = true →
  car (PyStr raw) (Some d) w =
  try_except (body (yahoo_symbol raw) d (d - 200) (d - 10) (d + w) (d + w + 5))
    (handler (yahoo_symbol raw)).
Proof.
  intros Hraw Hw. apply window_in_bounds_spec in Hw as [Hw H5].
  rewrite calculate_car_dated by done.
  by rewrite (timestamp_add_ok _ _ H5), bind_ret.
Qed.

Lemma car_body_starts_with_download sym d w :
  ∃ r t, body sym d (d - 200) (d - 10) (d + w) (d + w + 5) =
         (r, EvDownload [sym; benchmark] (d - 200) (d + w + 5) :: t).
Proof.
  unfold car_body, call_download.
  destruct (download _ _ _) as [data|e].
  - rewrite bind_ok. simpl. eauto.
  - rewrite bind_raised. eauto.
Qed.

Lemma calculate_car_starts_with_download raw d w :
  skip_ticker (PyStr raw) = false →
  window_in_bounds d w = true →
  ∃ r t, car (PyStr raw) (Some d) w =
         (r, EvDownload [yahoo_symbol raw; benchmark] (d - 200) (d + w + 5) :: t).
Proof.
  intros Hraw Hw. rewrite calculate_car_valid by done.
  destruct (car_body_starts_with_download (yahoo_symbol raw) d w)
    as (r & t & ->).
  destruct r as [v|e]; simpl; eauto.
Qed.

(** Every exception raised inside the [try] block is caught: once the
    three dates are computed, [calculate_car] returns. *)
Lemma calculate_car_dated_total raw d w :
  skip_ticker (PyStr raw) = false →
  window_dates_ok d w = true →
  ∃ v t, car (PyStr raw) (Some d) w = (Ok v, t).
Proof.
  intros Hraw Hw. rewrite calculate_car_dated by done.
  destruct (bind _ _) as [[v|e] t]; simpl; eauto.
Qed.

Lemma calculate_car_total tk date w :
  escapes tk date w = false →
  ∃ v t, car tk date w = (Ok v, t).
Proof.
  intros Hesc. destruct date as [d|]; [|by exists None, []].
  destruct (skip_ticker tk) eqn:Hs.
  { exists None, []. apply calculate_car_skipped. by right. }
  destruct tk as [raw| | |]; try discriminate.
  unfold escapes in Hesc. rewrite Hs in Hesc. cbn [negb andb] in Hesc.
  apply negb_false_iff in Hesc.
  by apply calculate_car_dated_total.
Qed.

Lemma calculate_car_escapes tk date w :
  escapes tk date w = true →
  ∃ e, car tk date w = (Raised e, []).
Proof.
  intros Hesc. destruct date as [d|]; [|discriminate].
  unfold escapes in Hesc. apply andb_true_iff in Hesc as [Hs Hw].
  apply negb_true_iff in Hs, Hw.
  destruct tk as [raw| | |]; try discriminate.
  by apply calculate_car_out_of_bounds.
Qed.

End Validation.

(** ** Claims about validation, failures and the batch driver *)

(** C7.  A trade whose transaction date is undefined, or whose ticker is
    not a string or is one of the placeholder tokens "--", "NaN" and the
    empty string, evaluates to null, and the trace is empty: the price
    provider was not called (whatever the provider and the regression
    routine are). *)
Theorem invalid_trade_is_null_before_fetch
    (download : list string → Z → Z → outcome frame)
    (fit : list fl → list fl → outcome (fl * fl)) (benchmark : string)
    (tk : pyval) (date : option Z) (w : Z) :
  date = None ∨ (∀ s, tk ≠ PyStr s) ∨
    tk = PyStr "--" ∨ tk = PyStr "NaN" ∨ tk = PyStr "" →
  calculate_car download fit benchmark tk date w = (Ok None, []).
Proof.
  intros H. apply calculate_car_skipped.
  destruct H as [H|H]; [by left | right].
  by apply skip_ticker_spec.
Qed.

Lemma invalid_trade_is_null_before_fetch_witness :
  calculate_car failing_download failing_fit "^GSPC" (PyStr "--") (Some 19000) 30
    = (Ok None, []) ∧
  calculate_car failing_download failing_fit "^GSPC" (PyFloat NaN) (Some 19000) 30
    = (Ok None, []) ∧
  calculate_car failing_download failing_fit "^GSPC" (PyStr "AAPL") None 30
    = (Ok None, []).
Proof.
  split; [|split].
  - apply invalid_trade_is_null_before_fetch. right. right. left. reflexivity.
  - apply invalid_trade_is_null_before_fetch. right. left. discriminate.
  - apply invalid_trade_is_null_before_fetch. left. reflexivity.
Defined.

(** C10.  The placeholder test of line 33 looks at the raw string, and
    nothing re-checks the sanitised one: for "nan", " -- " and a blank
    string, on a trade date whose windows are Timestamps, the provider is
    called with "NAN", "--" and the empty string, the last two being
    placeholder tokens themselves. *)
Theorem placeholder_test_is_on_raw_ticker
    (download : list string → Z → Z → outcome frame)
    (fit : list fl → list fl → outcome (fl * fl)) (benchmark : string)
    (d w : Z) :
  window_in_bounds d w = true →
  (∃ r t, calculate_car download fit benchmark (PyStr "nan") (Some d) w =
          (r, EvDownload ["NAN"; benchmark] (d - 200) (d + w + 5) :: t)) ∧
  (∃ r t, calculate_car download fit benchmark (PyStr " -- ") (Some d) w =
          (r, EvDownload ["--"; benchmark] (d - 200) (d + w + 5) :: t)) ∧
  (∃ r t, calculate_car download fit benchmark (PyStr "   ") (Some d) w =
          (r, EvDownload [""; benchmark] (d - 200) (d + w + 5) :: t)) ∧
  "--" ∈ invalid_tickers ∧ "" ∈ invalid_tickers.
Proof.
  intros Hw.
  assert (Hgo : ∀ raw, skip_ticker (PyStr raw) = false →
    ∃ r t, calculate_car download fit benchmark (PyStr raw) (Some d) w =
           (r, EvDownload [yahoo_symbol raw; benchmark] (d - 200) (d + w + 5) :: t)).
  { intros raw Hraw. by apply calculate_car_starts_with_download. }
  split; [|split; [|split; [|split]]].
  - apply (Hgo "nan"). reflexivity.
  - apply (Hgo " -- "). reflexivity.
  - apply (Hgo "   "). reflexivity.
  - unfold invalid_tickers. rewrite !elem_of_cons. auto.
  - unfold invalid_tickers. rewrite !elem_of_cons. auto.
Qed.

Lemma placeholder_test_is_on_raw_ticker_witness :
  ∃ r t, calculate_car failing_download failing_fit "^GSPC"
           (PyStr " -- ") (Some 19000) 30 =
         (r, EvDownload ["--"; "^GSPC"] 18800 19035 :: t).
Proof.
  exact (proj1 (proj2 (placeholder_test_is_on_raw_ticker failing_download
                         failing_fit "^GSPC" 19000 30 eq_refl))).
Defined.

(** C6.  When the joint return series has fewer than 50 rows the result is
    null, and the trace holds the download only: the regression routine was
    not called.  (The trade date is one whose windows are Timestamps, so
    that the provider is reached.) *)
Theorem short_history_is_null_before_fit
    (download : list string → Z → Z → outcome frame)
    (fit : list fl → list fl → outcome (fl * fl)) (benchmark : string)
    (raw : string) (d w : Z) (data : frame) :
  skip_ticker (PyStr raw) = false →
  window_in_bounds d w = true →
  download [yahoo_symbol raw; benchmark] (d - 200) (d + w + 5) = Ok data →
  (frame_len (dropna (pct_change data)) < 50)%nat →
  calculate_car download fit benchmark (PyStr raw) (Some d) w =
    (Ok None, [EvDownload [yahoo_symbol raw; benchmark] (d - 200) (d + w + 5)]).
Proof.
  intros Hraw Hw Hdata Hlen. rewrite calculate_car_valid by done.
  unfold car_body, call_download. rewrite Hdata, bind_ok.
  apply Nat.ltb_lt in Hlen. rewrite Hlen. reflexivity.
Qed.

Lemma short_history_is_null_before_fit_witness :
  (frame_len (dropna (pct_change (mkFrame ["AAPL"; "^GSPC"]
                                     (demo_prices (19035 - 75) 10)))) < 50)%nat ∧
  calculate_car short_download failing_fit "^GSPC" (PyStr "aapl") (Some 19000) 30 =
    (Ok None, [EvDownload ["AAPL"; "^GSPC"] 18800 19035]).
Proof.
  assert (H : (frame_len (dropna (pct_change (mkFrame ["AAPL"; "^GSPC"]
                 (demo_prices (19035 - 75) 10)))) < 50)%nat)
    by (vm_compute; lia).
  split; [exact H|].
  exact (short_history_is_null_before_fit short_download failing_fit "^GSPC"
           "aapl" 19000 30 _ eq_refl eq_refl eq_refl H).
Defined.

Section Batch.

Variable download : list string → Z → Z → outcome frame.
Variable fit : list fl → list fl → outcome (fl * fl).
Variable benchmark : string.

Local Notation car_of row :=
  (calculate_car download fit benchmark (ticker row) (transaction_date row) 30).

(** [df.apply(..., axis=1)] evaluates the rows in order and stops at the
    first one on which [calculate_car] raises; the trace is that of the
    rows evaluated to the end. *)
Lemma apply_stops_at_first_raise (l : list trade) :
  ∃ r, mapM (λ row, car_of row) l =
         (r, concat (map (λ row, (car_of row).2) (completed_rows l))) ∧
       match r with
       | Ok cars =>
           completed_rows l = l ∧ cars = map (λ row, returned (car_of row)) l
       | Raised _ => Exists (λ row, row_raises row = true) l
       end.
Proof.
  induction l as [|row l (r & IH & Hr)]; [by exists (Ok [])|].
  cbn [mapM completed_rows]. destruct (row_raises row) eqn:Hrow.
  - destruct (calculate_car_escapes download fit benchmark _ _ _ Hrow)
      as (e & He).
    exists (Raised e). rewrite He, bind_raised. split; [done|].
    by apply Exists_cons_hd.
  - destruct (calculate_car_total download fit benchmark _ _ _ Hrow)
      as (v & t & Hv).
    rewrite IH, Hv, bind_ok. cbn [fst snd map concat].
    unfold returned. rewrite Hv. cbn [fst snd].
    destruct r as [cars|e].
    + exists (Ok (v :: cars)). rewrite bind_ok. destruct Hr as [-> ->].
      unfold ret. cbn [fst snd]. by rewrite app_nil_r.
    + exists (Raised e). rewrite bind_raised. cbn [fst snd].
      split; [done|]. by apply Exists_cons_tl.
Qed.

Lemma completed_rows_all (l : list trade) :
  Forall (λ row, row_raises row = false) l → completed_rows l = l.
Proof.
  induction 1 as [|row l Hrow _ IH]; [done|].
  simpl. by rewrite Hrow, IH.
Qed.

(** When no row raises, every row is visited. *)
Lemma apply_visits_every_row (l : list trade) :
  Forall (λ row, row_raises row = false) l →
  mapM (λ row, car_of row) l =
  (Ok (map (λ row, returned (car_of row)) l),
   concat (map (λ row, (car_of row).2) l)).
Proof.
  intros Hl. destruct (apply_stops_at_first_raise l) as (r & -> & Hr).
  rewrite (completed_rows_all l Hl). destruct r as [cars|e].
  - by destruct Hr as [_ ->].
  - apply Exists_exists in Hr as (row & Hin & Hrow).
    rewrite Forall_forall in Hl. specialize (Hl row Hin). congruence.
Qed.

Lemma analyze_batch_nonempty (df : dataframe) :
  df_rows df ≠ [] →
  Forall (λ row, row_raises row = false) (df_rows df) →
  analyze_batch download fit benchmark df =
  (Ok (mkDataframe (df_rows df)
         (Some (map (λ row, returned (car_of row)) (df_rows df)))),
   EvDebugBatch (length (df_rows df))
     :: concat (map (λ row, (car_of row).2) (df_rows df))).
Proof.
  intros Hne Hl. unfold analyze_batch.
  destruct (df_rows df) as [|row l] eqn:Hrows; [done|].
  unfold emit. rewrite bind_ok. cbn [fst snd].
  rewrite (apply_visits_every_row _ Hl), bind_ok. simpl.
  by rewrite app_nil_r.
Qed.

(** A row that raises aborts the batch: the exception leaves
    [analyze_batch], after the rows before it have been evaluated. *)
Lemma analyze_batch_aborts (df : dataframe) :
  Exists (λ row, row_raises row = true) (df_rows df) →
  ∃ e, analyze_batch download fit benchmark df =
       (Raised e,
        EvDebugBatch (length (df_rows df))
          :: concat (map (λ row, (car_of row).2) (completed_rows (df_rows df)))).
Proof.
  intros Hex. unfold analyze_batch.
  destruct (df_rows df) as [|row l] eqn:Hrows; [by apply Exists_nil in Hex|].
  unfold emit. rewrite bind_ok. cbn [fst snd].
  destruct (apply_stops_at_first_raise (row :: l)) as (r & -> & Hr).
  destruct r as [cars|e].
  - destruct Hr as [Hall _]. exfalso. clear Hrows.
    revert Hall Hex. generalize (row :: l). clear. intros l.
    induction l as [|r l IH]; intros Hall Hex; [by apply Exists_nil in Hex|].
    simpl in Hall. destruct (row_raises r) eqn:Hr; [discriminate|].
    injection Hall as Hall. apply Exists_cons in Hex as [Hex|Hex].
    + congruence.
    + by apply IH.
  - exists e. by rewrite bind_raised.
Qed.

(** Whether the batch completes or aborts, its trace is the debug line
    followed by the traces of the rows evaluated to the end. *)
Lemma analyze_batch_trace (df : dataframe) :
  df_rows df ≠ [] →
  (analyze_batch download fit benchmark df).2 =
  EvDebugBatch (length (df_rows df))
    :: concat (map (λ row, (car_of row).2) (completed_rows (df_rows df))).
Proof.
  intros Hne. unfold analyze_batch.
  destruct (df_rows df) as [|row l] eqn:Hrows; [done|].
  unfold emit. rewrite bind_ok. cbn [fst snd].
  destruct (apply_stops_at_first_raise (row :: l)) as (r & -> & Hr).
  destruct r as [cars|e].
  - rewrite bind_ok. unfold ret. cbn [fst snd app]. by rewrite app_nil_r.
  - by rewrite bind_raised.
Qed.

Lemma completed_rows_do_not_raise (l : list trade) :
  Forall (λ row, row_raises row = false) (completed_rows l).
Proof.
  induction l as [|row l IH]; [constructor|].
  simpl. destruct (row_raises row) eqn:Hrow; by constructor.
Qed.

End Batch.

(** C4.  [calculate_car] raises exactly on the trades that pass the
    validation of lines 29-34 and whose estimation start, estimation end or
    event end (lines 41-43, computed before the [try] block) is not a
    Timestamp: then the exception leaves [calculate_car] with no effect,
    and it aborts [analyze_batch] for the table that holds such a row.  On
    every other trade whatever is raised is raised inside the [try] block
    and is caught: the result is null and the failure is written to the
    debug log, after whatever the body had done. *)
Theorem window_arithmetic_is_outside_the_try
    (download : list string → Z → Z → outcome frame)
    (fit : list fl → list fl → outcome (fl * fl)) (benchmark : string) :
  (∀ tk date w,
     if escapes tk date w
     then ∃ e, calculate_car download fit benchmark tk date w = (Raised e, [])
     else ∃ v t, calculate_car download fit benchmark tk date w = (Ok v, t)) ∧
  (∀ raw d w e t,
     skip_ticker (PyStr raw) = false →
     window_in_bounds d w = true →
     car_body download fit benchmark (yahoo_symbol raw) d
       (d - 200) (d - 10) (d + w) (d + w + 5) = (Raised e, t) →
     calculate_car download fit benchmark (PyStr raw) (Some d) w =
       (Ok None, t ++ [EvDebugError (yahoo_symbol raw) e])) ∧
  (∀ df,
     if bool_decide (Exists (λ row, row_raises row = true) (df_rows df))
     then ∃ e t, analyze_batch download fit benchmark df = (Raised e, t)
     else ∃ out t, analyze_batch download fit benchmark df = (Ok out, t)).
Proof.
  split; [|split].
  - intros tk date w. destruct (escapes tk date w) eqn:Hesc.
    + by apply calculate_car_escapes.
    + by apply calculate_car_total.
  - intros raw d w e t Hraw Hw Hbody.
    rewrite calculate_car_valid by done. rewrite Hbody. reflexivity.
  - intros df. case_bool_decide as Hex.
    + destruct (analyze_batch_aborts download fit benchmark df Hex) as (e & He).
      eauto.
    + destruct (df_rows df) as [|row l] eqn:Hrows.
      * exists df, []. unfold analyze_batch. by rewrite Hrows.
      * rewrite <- Hrows in Hex.
        rewrite analyze_batch_nonempty; [eauto|by rewrite Hrows|].
        apply Forall_forall. intros r Hr.
        destruct (row_raises r) eqn:Hrr; [|done].
        exfalso. apply Hex. apply Exists_exists. eauto.
Qed.

Lemma window_arithmetic_is_outside_the_try_witness :
  (∃ e, calculate_car demo_download (linear_regression_fit minimum_norm) "^GSPC"
          (PyStr "AAPL") (Some (-106681)) 30 = (Raised e, [])) ∧
  (∃ e t, analyze_batch demo_download (linear_regression_fit minimum_norm)
            "^GSPC" early_trades = (Raised e, t)) ∧
  calculate_car failing_download (linear_regression_fit minimum_norm) "^GSPC"
    (PyStr "aapl") (Some 19000) 30 =
    (Ok None, [EvDownload ["AAPL"; "^GSPC"] 18800 19035;
               EvDebugError "AAPL" "ConnectionError"]).
Proof.
  split; [|split].
  - exact (proj1 (window_arithmetic_is_outside_the_try demo_download
                    (linear_regression_fit minimum_norm) "^GSPC")
             (PyStr "AAPL") (Some (-106681)) 30).
  - exact (proj2 (proj2 (window_arithmetic_is_outside_the_try demo_download
                           (linear_regression_fit minimum_norm) "^GSPC"))
             early_trades).
  - exact (proj1 (proj2 (window_arithmetic_is_outside_the_try
             failing_download (linear_regression_fit minimum_norm) "^GSPC"))
             "aapl" 19000 30 "ConnectionError" _ eq_refl eq_refl eq_refl).
Defined.

(** C5, on an empty table: the guard of line 107 returns the table as it
    came, so no [car_30d] field is added. *)
Lemma empty_batch_gets_no_field :
  ¬ batch_augmented (mkDataframe [] None)
      (analyze_batch demo_download (linear_regression_fit minimum_norm) "^GSPC"
         (mkDataframe [] None)).
Proof.
  intros (out & cars & t & Hrun & _ & Hcol & _).
  vm_compute in Hrun. injection Hrun as <- <-. discriminate Hcol.
Qed.

(** C5, amended.  An empty table is returned unchanged, with nothing
    evaluated.  For a table with at least one row, none of which has a date
    that makes the window arithmetic of lines 41-43 fail, the result has
    the same rows in the same order and a [car_30d] column whose i-th entry
    is what [calculate_car] returns for the i-th row (a number or null),
    and the trace is the concatenation of the traces of all rows: no row is
    skipped, whatever the earlier rows evaluated to. *)
Theorem analyze_batch_keeps_rows_and_order
    (download : list string → Z → Z → outcome frame)
    (fit : list fl → list fl → outcome (fl * fl)) (benchmark : string)
    (df : dataframe) :
  let car_of row :=
    calculate_car download fit benchmark (ticker row) (transaction_date row) 30 in
  Forall (λ row, row_raises row = false) (df_rows df) →
  match df_rows df with
  | [] => analyze_batch download fit benchmark df = (Ok df, [])
  | _ =>
      ∃ cars,
        analyze_batch download fit benchmark df =
          (Ok (mkDataframe (df_rows df) (Some cars)),
           EvDebugBatch (length (df_rows df))
             :: concat (map (λ row, (car_of row).2) (df_rows df))) ∧
        length cars = length (df_rows df) ∧
        ∀ i row, df_rows df !! i = Some row →
                 cars !! i = Some (returned (car_of row))
  end.
Proof.
  intros car_of Hl. destruct (df_rows df) as [|row l] eqn:Hrows.
  - unfold analyze_batch. by rewrite Hrows.
  - rewrite <- Hrows in *.
    exists (map (λ row, returned (car_of row)) (df_rows df)).
    split; [|split].
    + apply analyze_batch_nonempty; [by rewrite Hrows | exact Hl].
    + by rewrite length_map.
    + intros i r Hi. by rewrite list_lookup_fmap, Hi.
Qed.

Lemma analyze_batch_keeps_rows_and_order_witness :
  let df := mkDataframe
              [mkTrade (PyStr "aapl") (Some 19000) "purchase";
               mkTrade (PyStr "--") (Some (-106681)) "sale";
               mkTrade (PyStr "msft") None "sale"] None in
  ∃ t, analyze_batch demo_download failing_fit "^GSPC" df =
       (Ok (mkDataframe (df_rows df) (Some [None; None; None])), t).
Proof.
  intros df.
  assert (Hl : Forall (λ row, row_raises row = false) (df_rows df))
    by (repeat constructor).
  destruct (analyze_batch_keeps_rows_and_order demo_download failing_fit
              "^GSPC" df Hl) as (cars & Hrun & Hlen & Hcars).
  pose proof (Hcars 0%nat _ eq_refl) as H0.
  pose proof (Hcars 1%nat _ eq_refl) as H1.
  pose proof (Hcars 2%nat _ eq_refl) as H2.
  destruct cars as [|c0 [|c1 [|c2 [|? ?]]]]; try discriminate Hlen.
  vm_compute in H0, H1, H2.
  injection H0 as ->. injection H1 as ->. injection H2 as ->.
  eexists. exact Hrun.
Defined.

(** C8, as stated, fails: a symbol that starts with a digit, or with the
    currency marker, and has no entry in the remap table is evaluated like
    any other, and gets a CAR when the provider has prices for it. *)
Lemma digit_symbol_is_evaluated :
  (unusable (sanitize "1inch-usd") = true ∧
   TICKER_MAP !! sanitize "1inch-usd" = None ∧
   ∃ q, returned (calculate_car demo_download
                    (linear_regression_fit minimum_norm) "^GSPC"
                    (PyStr "1inch-usd") (Some 19000) 30) = Some (Fin q)) ∧
  (unusable (sanitize "$eth") = true ∧
   TICKER_MAP !! sanitize "$eth" = None ∧
   ∃ q, returned (calculate_car demo_download
                    (linear_regression_fit minimum_norm) "^GSPC"
                    (PyStr "$eth") (Some 19000) 30) = Some (Fin q)).
Proof.
  split; (split; [|split]); try (vm_compute; reflexivity);
    eexists; vm_compute; reflexivity.
Qed.

(** C8, amended.  A ticker that is not a string, or is literally "--",
    "NaN" or the empty string, gives null without a fetch.  Every other
    string is trimmed, uppercased, has "/" and "." replaced by "-", goes
    through the remap table ("$BTC" becomes "BTC-USD", "XSP" becomes "SPY")
    and is then fetched under that symbol (on a trade date whose windows
    are Timestamps); no further test on the symbol (empty, placeholder,
    currency prefix, leading digit) is made. *)
Theorem only_raw_placeholders_are_rejected
    (download : list string → Z → Z → outcome frame)
    (fit : list fl → list fl → outcome (fl * fl)) (benchmark : string)
    (tk : pyval) (d w : Z) :
  (skip_ticker tk = true →
     calculate_car download fit benchmark tk (Some d) w = (Ok None, [])) ∧
  (∀ raw, tk = PyStr raw → raw ∉ invalid_tickers →
     window_in_bounds d w = true →
     ∃ r t, calculate_car download fit benchmark tk (Some d) w =
            (r, EvDownload [yahoo_symbol raw; benchmark]
                  (d - 200) (d + w + 5) :: t)) ∧
  yahoo_symbol "$BTC" = "BTC-USD" ∧ yahoo_symbol "xsp" = "SPY" ∧
  yahoo_symbol "BRK/B" = "BRK-B".
Proof.
  split; [|split; [|by vm_compute]].
  - intros H. apply calculate_car_skipped. by right.
  - intros raw -> Hraw Hw.
    assert (Hs : skip_ticker (PyStr raw) = false)
      by (simpl; by apply bool_decide_eq_false).
    by apply calculate_car_starts_with_download.
Qed.

Lemma only_raw_placeholders_are_rejected_witness :
  calculate_car failing_download failing_fit "^GSPC" PyNone (Some 19000) 30 =
    (Ok None, []) ∧
  ∃ r t, calculate_car failing_download failing_fit "^GSPC"
           (PyStr "$btc") (Some 19000) 30 =
         (r, EvDownload ["BTC-USD"; "^GSPC"] 18800 19035 :: t).
Proof.
  split.
  - exact (proj1 (only_raw_placeholders_are_rejected failing_download
                    failing_fit "^GSPC" PyNone 19000 30) eq_refl).
  - refine (proj1 (proj2 (only_raw_placeholders_are_rejected failing_download
                    failing_fit "^GSPC" (PyStr "$btc") 19000 30))
              "$btc" eq_refl _ eq_refl).
    unfold invalid_tickers. rewrite !elem_of_cons, elem_of_nil.
    intros [H|[H|[H|[]]]]; discriminate H.
Defined.

(** ** Returns (line 60) *)







Lemma first_row_has_no_return (d : Z) (cells : list fl) (n : nat) :
  length cells = n → n ≠ 0%nat →
  row_notna (d, zip_with pct_cell cells (replicate n NaN)) = false.
Proof.
  intros Hlen Hn. destruct cells as [|c cells]; simpl in Hlen; [lia|].
  subst n. unfold row_notna. simpl.
  replace (pct_cell c NaN) with NaN by (by destruct c). reflexivity.
Qed.

Lemma rectangular_spec (df : frame) :
  rectangular df = true ↔
  length (columns df) ≠ 0%nat ∧
  Forall (λ r, length r.2 = length (columns df)) (rows df).
Proof.
  unfold rectangular. rewrite andb_true_iff, negb_true_iff, Nat.eqb_neq.
  apply and_iff_compat_l.
  induction (rows df) as [|r l IH]; simpl.
  - split; [constructor | done].
  - by rewrite andb_true_iff, IH, Forall_cons, Nat.eqb_eq.
Qed.

Lemma fst_zip_with_rows {B} (g : Z * list fl → B → list fl)
    (l : list (Z * list fl)) (k : list B) :
  (length l ≤ length k)%nat →
  map fst (zip_with (λ r p, (r.1, g r p)) l k) = map fst l.
Proof.
  revert k. induction l as [|r l IH]; intros [|p k] Hlen; simpl in *;
    try reflexivity; try lia.
  f_equal. apply IH. lia.
Qed.

Lemma returns_skip_first_row (data : frame) :
  rectangular data = true →
  ∃ rest, rows (dropna (pct_change data)) =
            filter (λ r, row_notna r = true) rest ∧
          map fst rest = tail (map fst (rows data)).
Proof.
  intros Hrect. apply rectangular_spec in Hrect as [Hcols Hrows].
  unfold dropna, pct_change, shifted_cells. simpl.
  destruct (rows data) as [|r0 rs]; simpl.
  - exists []. split; reflexivity.
  - exists (zip_with (λ r prev, (r.1, zip_with pct_cell r.2 prev)) rs
              (map snd (r0 :: rs))).
    split.
    + apply filter_cons_False. apply Forall_cons in Hrows as [Hr0 _].
      rewrite first_row_has_no_return; done.
    + apply (fst_zip_with_rows (λ r prev, zip_with pct_cell r.2 prev)).
      simpl. rewrite length_map. lia.
Qed.



(** ** The event window and the sum (lines 83-98) *)

Lemma loc_rows_event_window (returns : frame) (d w : Z) :
  rows (loc returns d (d + w)) = event_window_rows returns d w.
Proof.
  unfold loc, event_window_rows. simpl. apply list_filter_iff.
  intros r. unfold in_window. rewrite andb_true_iff, !Z.leb_le. reflexivity.
Qed.

Lemma fold_fadd_finite (qs : list Q) (acc : Q) :
  ∃ q, fold_left fadd (map Fin qs) (Fin acc) = Fin q ∧
       (q == acc + plain_sum qs)%Q.
Proof.
  unfold plain_sum. revert acc. induction qs as [|x qs IH]; intros acc; simpl.
  - exists acc. split; [reflexivity | ring].
  - destruct (IH (Qred (acc + x))) as (q & Hq & Heq).
    exists q. split; [exact Hq|]. rewrite Heq, Qred_correct. ring.
Qed.

Lemma nansum_finite (qs : list Q) :
  ∃ q, nansum (map Fin qs) = Fin q ∧ (q == plain_sum qs)%Q.
Proof.
  unfold nansum.
  replace (filter (λ x, isnan x = false) (map Fin qs)) with (map Fin qs).
  - destruct (fold_fadd_finite qs 0) as (q & Hq & Heq).
    exists q. split; [exact Hq|]. rewrite Heq. ring.
  - induction qs as [|x qs IH]; [reflexivity|]. simpl.
    rewrite filter_cons_True by reflexivity. by f_equal.
Qed.

Lemma plain_sum_ext {A} (f g : A → Q) (l : list A) :
  (∀ x, x ∈ l → (f x == g x)%Q) →
  (plain_sum (map f l) == plain_sum (map g l))%Q.
Proof.
  unfold plain_sum. induction l as [|x l IH]; intros H; simpl; [reflexivity|].
  rewrite (H x) by left. rewrite IH; [reflexivity|].
  intros y Hy. apply H. by right.
Qed.

Lemma forallb_true_Forall {A} (f : A → bool) (l : list A) :
  forallb f l = true ↔ Forall (λ x, f x = true) l.
Proof.
  induction l as [|x l IH]; simpl.
  - split; [constructor | done].
  - by rewrite andb_true_iff, IH, Forall_cons.
Qed.

Lemma isfinite_to_Q (x : fl) : isfinite x = true → x = Fin (to_Q x).
Proof. by destruct x. Qed.

(** The column arithmetic of lines 87-94 on finite cells, row by row. *)
Lemma abnormal_returns_rowwise (i j : nat) (alpha beta : Q)
    (l : list (Z * list fl)) :
  Forall (λ r, isfinite (cell i r.2) && isfinite (cell j r.2) = true) l →
  zip_with fsub (map (λ r, cell i r.2) l)
     (map (λ m, fadd (Fin alpha) (fmul (Fin beta) m))
          (map (λ r, cell j r.2) l)) =
  map Fin
    (map (λ r, Qred (to_Q (cell i r.2)
                     + - Qred (alpha + Qred (beta * to_Q (cell j r.2))))) l).
Proof.
  induction 1 as [|r l Hr _ IH]; [reflexivity|]. cbn [map zip_with].
  apply andb_true_iff in Hr as [Hi Hj].
  rewrite IH. f_equal.
  rewrite (isfinite_to_Q _ Hi) at 1. rewrite (isfinite_to_Q _ Hj) at 1.
  reflexivity.
Qed.

Section Aggregation.

Variable benchmark : string.

Lemma event_car_is_plain_sum (returns : frame) (sym : string)
    (d w : Z) (alpha beta : Q) :
  columns returns ≠ [] →
  finite_between returns sym benchmark d (d + w) = true →
  match event_window_rows returns d w with
  | [] => event_car benchmark returns sym d (d + w) (Fin alpha) (Fin beta) = None
  | _ => ∃ q,
      event_car benchmark returns sym d (d + w) (Fin alpha) (Fin beta)
        = Some (Fin q) ∧
      (q == car_sum returns sym benchmark d w alpha beta)%Q
  end.
Proof.
  intros Hcols Hfin. unfold event_car, frame_empty, car_sum.
  unfold finite_between in Hfin. unfold column_values.
  rewrite loc_rows_event_window in *.
  change (columns (loc returns d (d + w))) with (columns returns).
  destruct (event_window_rows returns d w) as [|r l] eqn:Hrows; [reflexivity|].
  destruct (columns returns) as [|c cs] eqn:Hc; [done|].
  rewrite <- Hc. unfold return_of in *.
  apply forallb_true_Forall in Hfin.
  rewrite abnormal_returns_rowwise by exact Hfin.
  destruct (nansum_finite
      (map (λ r, Qred (to_Q (cell (index_of sym (columns returns)) r.2)
                 + - Qred (alpha + Qred (beta *
                     to_Q (cell (index_of benchmark (columns returns)) r.2)))))
           (r :: l))) as (q & Hq & Heq).
  exists q. split; [by rewrite Hq|].
  rewrite Heq. apply plain_sum_ext. intros x _.
  unfold abnormal_return. rewrite !Qred_correct. ring.
Qed.

End Aggregation.

(** ** The stages of [calculate_car] *)

Section Stages.

Variable download : list string → Z → Z → outcome frame.
Variable fit : list fl → list fl → outcome (fl * fl).
Variable benchmark : string.

(** Past validation, the fetch and the 50-row floor, the engine is the
    market-model stage followed by the aggregation stage. *)
Lemma calculate_car_after_floor raw d w data :
  skip_ticker (PyStr raw) = false →
  window_in_bounds d w = true →
  download [yahoo_symbol raw; benchmark] (d - 200) (d + w + 5) = Ok data →
  (50 ≤ frame_len (dropna (pct_change data)))%nat →
  calculate_car download fit benchmark (PyStr raw) (Some d) w =
  let fetch := EvDownload [yahoo_symbol raw; benchmark] (d - 200) (d + w + 5) in
  match market_model fit benchmark (dropna (pct_change data))
          (yahoo_symbol raw) (d - 200) (d - 10) with
  | (Ok (Some (alpha, beta)), t) =>
      (Ok (event_car benchmark (dropna (pct_change data)) (yahoo_symbol raw)
             d (d + w) alpha beta), fetch :: t)
  | (Ok None, t) => (Ok None, fetch :: t)
  | (Raised e, t) =>
      (Ok None, fetch :: t ++ [EvDebugError (yahoo_symbol raw) e])
  end.
Proof.
  intros Hraw Hw Hdata Hlen. rewrite calculate_car_valid by done.
  unfold car_body, call_download. rewrite Hdata, bind_ok.
  apply Nat.ltb_ge in Hlen. cbn [fst snd]. rewrite Hlen.
  destruct (market_model _ _ _ _ _ _) as [[[[alpha beta]|]|e] t];
    simpl; rewrite ?app_nil_r; reflexivity.
Qed.

Lemma market_model_cases returns sym lo hi :
  let est_data := loc returns lo hi in
  let X := column_values est_data benchmark in
  let y := column_values est_data sym in
  if frame_empty est_data
     || negb (has_column est_data benchmark)
     || negb (has_column est_data sym)
  then market_model fit benchmark returns sym lo hi = (Ok None, [])
  else market_model fit benchmark returns sym lo hi =
       (match fit X y with
        | Ok model => Ok (Some model)
        | Raised e => Raised e
        end, [EvFit X y]).
Proof.
  intros est_data X y. unfold market_model. fold est_data. fold X. fold y.
  destruct (_ || _ || _); [reflexivity|].
  unfold call_fit. destruct (fit X y) as [[alpha beta]|e]; reflexivity.
Qed.

Lemma market_model_some_columns returns sym lo hi model t :
  market_model fit benchmark returns sym lo hi = (Ok (Some model), t) →
  columns returns ≠ [].
Proof.
  intros H. pose proof (market_model_cases returns sym lo hi) as Hc.
  cbv zeta in Hc.
  destruct (_ || _ || _) eqn:Hguard; [congruence|].
  apply orb_false_iff in Hguard as [Hguard _].
  apply orb_false_iff in Hguard as [_ Hb].
  apply negb_false_iff, bool_decide_eq_true in Hb.
  change (columns (loc returns lo hi)) with (columns returns) in Hb.
  intros Hnil. rewrite Hnil in Hb. by apply elem_of_nil in Hb.
Qed.

End Stages.

(** C1.  For a trade that reaches the aggregation step (its windows are
    Timestamps, the fetch succeeded, the floor is met) with a fitted model
    (alpha, beta), and whose returns in the event window are finite
    numbers: the result is null when no return row is dated in the closed
    window from the trade date to the trade date plus the horizon, and
    otherwise it is the plain sum, over exactly those rows, of
    [actual - (alpha + beta * benchmark)].  Rows after the horizon, which
    the five-day fetch buffer may have brought in, do not enter the sum. *)
Theorem car_is_sum_of_abnormal_returns
    (download : list string → Z → Z → outcome frame)
    (fit : list fl → list fl → outcome (fl * fl)) (benchmark : string)
    (raw : string) (d w : Z) (data : frame) (alpha beta : Q)
    (t : list event) :
  let sym := yahoo_symbol raw in
  let returns := dropna (pct_change data) in
  skip_ticker (PyStr raw) = false →
  window_in_bounds d w = true →
  download [sym; benchmark] (d - 200) (d + w + 5) = Ok data →
  (50 ≤ frame_len returns)%nat →
  market_model fit benchmark returns sym (d - 200) (d - 10) =
    (Ok (Some (Fin alpha, Fin beta)), t) →
  finite_between returns sym benchmark d (d + w) = true →
  ∃ v,
    calculate_car download fit benchmark (PyStr raw) (Some d) w =
      (Ok v, EvDownload [sym; benchmark] (d - 200) (d + w + 5) :: t) ∧
    match event_window_rows returns d w with
    | [] => v = None
    | _ => ∃ q, v = Some (Fin q) ∧
                (q == car_sum returns sym benchmark d w alpha beta)%Q
    end.
Proof.
  intros sym returns Hraw Hw Hdata Hlen Hmodel Hfin.
  rewrite (calculate_car_after_floor download fit benchmark raw d w data)
    by done.
  fold sym returns. rewrite Hmodel. cbv zeta.
  eexists. split; [reflexivity|].
  apply event_car_is_plain_sum; [|exact Hfin].
  eapply market_model_some_columns. exact Hmodel.
Qed.

Lemma car_is_sum_of_abnormal_returns_witness :
  ∃ v X y,
    calculate_car demo_download demo_fit "^GSPC" (PyStr "aapl") (Some 19000) 30 =
      (Ok v, [EvDownload ["AAPL"; "^GSPC"] 18800 19035; EvFit X y]) ∧
    ∃ q, v = Some (Fin q) ∧
         (q == car_sum (dropna (pct_change
                          (mkFrame ["AAPL"; "^GSPC"] (demo_prices 18960 60))))
                 "AAPL" "^GSPC" 19000 30 (1 # 1000) (1 # 2))%Q.
Proof.
  edestruct (car_is_sum_of_abnormal_returns demo_download demo_fit "^GSPC"
               "aapl" 19000 30
               (mkFrame ["AAPL"; "^GSPC"] (demo_prices 18960 60))
               (1 # 1000) (1 # 2)) as (v & Hrun & Hsum).
  - reflexivity.
  - reflexivity.
  - reflexivity.
  - vm_compute. lia.
  - vm_compute. reflexivity.
  - vm_compute. reflexivity.
  - exists v. eexists _, _. split; [exact Hrun|].
    exact Hsum.
Defined.

(** ** Least squares, in terms of the moments of the sample *)

Section LeastSquares.

Local Open Scope Q_scope.

Lemma Qlen_succ (n : nat) :
  inject_Z (Z.of_nat (S n)) == 1 + inject_Z (Z.of_nat n).
Proof.
  rewrite Nat2Z.inj_succ, <- Z.add_1_l, inject_Z_plus. reflexivity.
Qed.

Lemma quadratic_sum (c0 c1 c2 c3 c4 c5 : Q) (ps : list (Q * Q)) :
  psum ps (λ p, c0 + c1 * p.1 + c2 * p.2
                + c3 * (p.1 * p.1) + c4 * (p.1 * p.2) + c5 * (p.2 * p.2)) ==
  c0 * inject_Z (Z.of_nat (length ps))
  + c1 * psum ps (λ p, p.1) + c2 * psum ps (λ p, p.2)
  + c3 * psum ps (λ p, p.1 * p.1) + c4 * psum ps (λ p, p.1 * p.2)
  + c5 * psum ps (λ p, p.2 * p.2).
Proof.
  unfold psum, plain_sum. induction ps as [|p l IH].
  - simpl. ring.
  - cbn [map fold_right length]. rewrite IH, Qlen_succ. ring.
Qed.

Lemma psum_ext (ps : list (Q * Q)) (f g : Q * Q → Q) :
  (∀ p, p ∈ ps → f p == g p) → psum ps f == psum ps g.
Proof. apply plain_sum_ext. Qed.

Lemma Qsquare_nonneg (x : Q) : 0 <= x * x.
Proof.
  destruct (Qlt_le_dec x 0) as [H|H].
  - assert (E : x * x == (- x) * (- x)) by ring. rewrite E.
    apply Qmult_le_0_compat; apply (Qopp_le_compat x 0), Qlt_le_weak, H.
  - by apply Qmult_le_0_compat.
Qed.

Lemma psum_nonneg (ps : list (Q * Q)) (f : Q * Q → Q) :
  (∀ p, 0 <= f p) → 0 <= psum ps f.
Proof.
  intros Hf. unfold psum, plain_sum. induction ps as [|p l IH]; simpl.
  - apply Qle_refl.
  - change (0 + 0 <= f p + fold_right Qplus 0 (map f l)).
    by apply Qplus_le_compat.
Qed.

Lemma psum_zero_terms (ps : list (Q * Q)) (f : Q * Q → Q) :
  (∀ p, 0 <= f p) → psum ps f == 0 → ∀ p, p ∈ ps → f p == 0.
Proof.
  intros Hf. unfold psum, plain_sum. induction ps as [|q l IH]; simpl.
  - intros _ p Hp. by apply elem_of_nil in Hp.
  - intros Hsum p Hp.
    pose proof (psum_nonneg l f Hf) as Hl. unfold psum, plain_sum in Hl.
    pose proof (Hf q) as Hq.
    assert (Hq0 : f q == 0).
    { apply Qle_antisym; [|exact Hq].
      assert (E : f q == (f q + fold_right Qplus 0 (map f l))
                         + - fold_right Qplus 0 (map f l)) by ring.
      rewrite E, Hsum.
      change (0 + - fold_right Qplus 0 (map f l) <= 0 + - 0).
      apply Qplus_le_compat; [apply Qle_refl|]. by apply Qopp_le_compat. }
    apply elem_of_cons in Hp as [->|Hp]; [exact Hq0|].
    apply IH; [|exact Hp]. rewrite Hq0, Qplus_0_l in Hsum. exact Hsum.
Qed.

Variable ps : list (Q * Q).
Hypothesis nonempty : ps ≠ [].

Local Notation N := (inject_Z (Z.of_nat (length ps))).
Local Notation Sx := (psum ps (λ p, p.1)).
Local Notation Sy := (psum ps (λ p, p.2)).
Local Notation Sxx := (psum ps (λ p, p.1 * p.1)).
Local Notation Sxy := (psum ps (λ p, p.1 * p.2)).
Local Notation Syy := (psum ps (λ p, p.2 * p.2)).

Lemma sample_size_nonzero : ¬ N == 0.
Proof.
  destruct ps as [|p l]; [done|].
  unfold Qeq. cbn [length Qnum Qden inject_Z]. lia.
Qed.

(** Sum of products of deviations from [p] and [q]. *)
Lemma deviations_sum (p q : Q) :
  psum ps (λ r, (r.1 - p) * (r.2 - q)) == p * q * N - q * Sx - p * Sy + Sxy.
Proof.
  rewrite (psum_ext ps _ (λ r, p * q + (- q) * r.1 + (- p) * r.2
             + 0 * (r.1 * r.1) + 1 * (r.1 * r.2) + 0 * (r.2 * r.2)))
    by (intros; ring).
  rewrite quadratic_sum. ring.
Qed.

Lemma deviations_sum_xx (p : Q) :
  psum ps (λ r, (r.1 - p) * (r.1 - p)) == p * p * N - 2 * p * Sx + Sxx.
Proof.
  rewrite (psum_ext ps _ (λ r, p * p + (- (2 * p)) * r.1 + 0 * r.2
             + 1 * (r.1 * r.1) + 0 * (r.1 * r.2) + 0 * (r.2 * r.2)))
    by (intros; ring).
  rewrite quadratic_sum. ring.
Qed.

Lemma residual_sum (a b : Q) :
  psum ps (λ r, (r.2 - (a + b * r.1)) * (r.2 - (a + b * r.1))) ==
  a * a * N + 2 * a * b * Sx - 2 * a * Sy + b * b * Sxx - 2 * b * Sxy + Syy.
Proof.
  rewrite (psum_ext ps _ (λ r, a * a + (2 * a * b) * r.1 + (- (2 * a)) * r.2
             + (b * b) * (r.1 * r.1) + (- (2 * b)) * (r.1 * r.2)
             + 1 * (r.2 * r.2)))
    by (intros; ring).
  rewrite quadratic_sum. ring.
Qed.

(** A line that satisfies the two normal equations has the least residual
    sum of squares. *)
Lemma normal_equations_minimise (alpha beta a b : Q) :
  alpha * N + beta * Sx == Sy →
  alpha * Sx + beta * Sxx == Sxy →
  psum ps (λ r, (r.2 - (alpha + beta * r.1)) * (r.2 - (alpha + beta * r.1)))
  <= psum ps (λ r, (r.2 - (a + b * r.1)) * (r.2 - (a + b * r.1))).
Proof.
  intros N1 N2.
  pose proof (psum_nonneg ps
    (λ r, ((a - alpha) + (b - beta) * r.1) * ((a - alpha) + (b - beta) * r.1))
    (λ r, Qsquare_nonneg _)) as Hsq.
  rewrite (psum_ext ps _ (λ r, (a - alpha) * (a - alpha)
             + (2 * (a - alpha) * (b - beta)) * r.1 + 0 * r.2
             + ((b - beta) * (b - beta)) * (r.1 * r.1)
             + 0 * (r.1 * r.2) + 0 * (r.2 * r.2))) in Hsq
    by (intros; ring).
  rewrite quadratic_sum in Hsq.
  rewrite !residual_sum. rewrite <- N1, <- N2.
  apply Qle_minus_iff.
  match goal with |- 0 <= ?e =>
    assert (E : e == (a - alpha) * (a - alpha) * N
                     + 2 * (a - alpha) * (b - beta) * Sx + 0 * (alpha * N + beta * Sx)
                     + (b - beta) * (b - beta) * Sxx
                     + 0 * (alpha * Sx + beta * Sxx) + 0 * Syy) by ring
  end.
  rewrite E. rewrite <- N1, <- N2 in Hsq. exact Hsq.
Qed.

End LeastSquares.

Section Transfer.

Local Open Scope Q_scope.

Lemma normal_equations_from_moments
    (N Sx Sy Sxx Sxy mx my Cxx Cxy alpha beta : Q) :
  ¬ N == 0 →
  mx == Sx / N → my == Sy / N →
  Cxx == mx * mx * N - 2 * mx * Sx + Sxx →
  Cxy == mx * my * N - my * Sx - mx * Sy + Sxy →
  beta * Cxx == Cxy →
  alpha == my - beta * mx →
  alpha * N + beta * Sx == Sy ∧ alpha * Sx + beta * Sxx == Sxy.
Proof.
  intros HN Hmx Hmy HCxx HCxy Hbeta Halpha.
  assert (HSx : Sx == mx * N) by (rewrite Hmx; field; exact HN).
  assert (HSy : Sy == my * N) by (rewrite Hmy; field; exact HN).
  rewrite HCxx, HCxy in Hbeta. rewrite Halpha, HSx, HSy.
  rewrite HSx, HSy in Hbeta. split; [ring|].
  assert (E : (my - beta * mx) * (mx * N) + beta * Sxx ==
              Sxy + (beta * (mx * mx * N - 2 * mx * (mx * N) + Sxx)
                     - (mx * my * N - my * (mx * N) - mx * (my * N) + Sxy)))
    by ring.
  rewrite E, Hbeta. ring.
Qed.

Lemma Qsum_plain (l : list Q) : Qsum l == plain_sum l.
Proof.
  unfold Qsum, plain_sum. induction l as [|x l IH]; simpl; [reflexivity|].
  by rewrite Qred_correct, IH.
Qed.

Lemma Qmean_plain (l : list Q) : Qmean l == plain_mean l.
Proof.
  unfold Qmean, plain_mean. by rewrite Qred_correct, Qsum_plain.
Qed.

Variables xs ys : list Q.
Variable degenerate_slope : list Q → list Q → Q.
Hypothesis same_length : length xs = length ys.
Hypothesis nonempty : xs ≠ [].

Local Notation ps := (zip xs ys).

Lemma sample_nonempty : ps ≠ [].
Proof.
  destruct xs as [|x l]; [done|]. destruct ys as [|y k]; [done|]. done.
Qed.

Lemma sample_xs : map fst ps = xs.
Proof. apply fst_zip. lia. Qed.

Lemma sample_ys : map snd ps = ys.
Proof. apply snd_zip. lia. Qed.

Lemma sample_length : length ps = length xs.
Proof. rewrite <- sample_xs at 2. by rewrite length_map. Qed.

Lemma plain_sum_xs : plain_sum xs = psum ps (λ r, r.1).
Proof. unfold psum. by rewrite <- sample_xs at 1. Qed.

Lemma plain_sum_ys : plain_sum ys = psum ps (λ r, r.2).
Proof. unfold psum. by rewrite <- sample_ys at 1. Qed.

Lemma plain_sum_zip_with (f : Q → Q → Q) :
  plain_sum (zip_with f xs ys) = psum ps (λ r, f r.1 r.2).
Proof.
  unfold psum. rewrite zip_with_zip. f_equal.
  apply list_fmap_ext. by intros i [x y] _.
Qed.

Lemma plain_sum_zip_with_xx (f : Q → Q → Q) :
  plain_sum (zip_with f xs xs) = psum ps (λ r, f r.1 r.1).
Proof.
  unfold psum. rewrite <- sample_xs at 1 2. f_equal.
  induction ps as [|r l IH]; [reflexivity|]. simpl. by rewrite IH.
Qed.

Lemma Qmean_xs : Qmean xs == psum ps (λ r, r.1) / inject_Z (Z.of_nat (length ps)).
Proof.
  rewrite Qmean_plain. unfold plain_mean, Qlen.
  by rewrite plain_sum_xs, sample_length.
Qed.

Lemma Qmean_ys : Qmean ys == psum ps (λ r, r.2) / inject_Z (Z.of_nat (length ps)).
Proof.
  rewrite Qmean_plain. unfold plain_mean, Qlen.
  by rewrite plain_sum_ys, sample_length, same_length.
Qed.

Lemma Qcov_xy :
  Qcov xs ys == psum ps (λ r, (r.1 - Qmean xs) * (r.2 - Qmean ys)).
Proof.
  unfold Qcov. cbv zeta. rewrite Qsum_plain.
  by rewrite (plain_sum_zip_with (λ x y, (x - Qmean xs) * (y - Qmean ys))).
Qed.

Lemma Qcov_xx :
  Qcov xs xs == psum ps (λ r, (r.1 - Qmean xs) * (r.1 - Qmean xs)).
Proof.
  unfold Qcov. cbv zeta. rewrite Qsum_plain.
  by rewrite (plain_sum_zip_with_xx (λ x y, (x - Qmean xs) * (y - Qmean xs))).
Qed.

(** The slope solves [beta * Cxx = Cxy], also when the regressor is
    constant, whatever slope the solver then returns. *)
Lemma ols_slope_equation : ols_slope degenerate_slope xs ys * Qcov xs xs == Qcov xs ys.
Proof.
  unfold ols_slope. destruct (Qeq_bool (Qcov xs xs) 0) eqn:Hc.
  - apply Qeq_bool_eq in Hc.
    assert (Hx : ∀ r, r ∈ ps → r.1 - Qmean xs == 0).
    { intros r Hr. rewrite Qcov_xx in Hc.
      pose proof (psum_zero_terms ps _ (λ r, Qsquare_nonneg _) Hc r Hr) as H0.
      simpl in H0. by destruct (Qmult_integral _ _ H0). }
    rewrite Hc, Qcov_xy.
    rewrite (psum_ext ps _ (λ r, 0 + 0 * r.1 + 0 * r.2 + 0 * (r.1 * r.1)
                                 + 0 * (r.1 * r.2) + 0 * (r.2 * r.2))).
    + rewrite quadratic_sum. ring.
    + intros r Hr. rewrite (Hx r Hr). ring.
  - apply Qeq_bool_neq in Hc. rewrite Qred_correct. field. exact Hc.
Qed.

Lemma ols_normal_equations :
  let alpha := ols_intercept degenerate_slope xs ys in
  let beta := ols_slope degenerate_slope xs ys in
  alpha * inject_Z (Z.of_nat (length ps)) + beta * psum ps (λ r, r.1)
    == psum ps (λ r, r.2) ∧
  alpha * psum ps (λ r, r.1) + beta * psum ps (λ r, r.1 * r.1)
    == psum ps (λ r, r.1 * r.2).
Proof.
  intros alpha beta.
  apply (normal_equations_from_moments _ _ _ _ _
           (Qmean xs) (Qmean ys) (Qcov xs xs) (Qcov xs ys)).
  - apply sample_size_nonzero, sample_nonempty.
  - apply Qmean_xs.
  - apply Qmean_ys.
  - rewrite Qcov_xx. apply deviations_sum_xx.
  - rewrite Qcov_xy. apply deviations_sum.
  - apply ols_slope_equation.
  - unfold alpha, ols_intercept. by rewrite Qred_correct.
Qed.

(** The fitted line has the least residual sum of squares among all
    lines. *)
Lemma ols_least_squares (a b : Q) :
  sse (ols_intercept degenerate_slope xs ys) (ols_slope degenerate_slope xs ys) xs ys <= sse a b xs ys.
Proof.
  unfold sse.
  rewrite !(plain_sum_zip_with
              (λ x y, (y - (_ + _ * x)) * (y - (_ + _ * x)))).
  destruct ols_normal_equations as [N1 N2].
  by apply normal_equations_minimise.
Qed.

Lemma Qcov_xy_plain :
  Qcov xs ys ==
  plain_sum (zip_with (λ x y, (x - plain_mean xs) * (y - plain_mean ys)) xs ys).
Proof.
  rewrite Qcov_xy,
    (plain_sum_zip_with (λ x y, (x - plain_mean xs) * (y - plain_mean ys))).
  apply psum_ext. intros r _. by rewrite !Qmean_plain.
Qed.

Lemma Qcov_xx_plain :
  Qcov xs xs ==
  plain_sum (zip_with (λ x x', (x - plain_mean xs) * (x' - plain_mean xs)) xs xs).
Proof.
  rewrite Qcov_xx,
    (plain_sum_zip_with_xx (λ x y, (x - plain_mean xs) * (y - plain_mean xs))).
  apply psum_ext. intros r _. by rewrite !Qmean_plain.
Qed.

(** When the regressor is not constant the fit is the textbook closed
    form. *)
Lemma ols_closed_form :
  ¬ plain_sum (zip_with (λ x x', (x - plain_mean xs) * (x' - plain_mean xs))
                 xs xs) == 0 →
  ols_slope degenerate_slope xs ys == closed_form_beta xs ys ∧
  ols_intercept degenerate_slope xs ys == closed_form_alpha xs ys.
Proof.
  intros Hden.
  assert (Hslope : ols_slope degenerate_slope xs ys == closed_form_beta xs ys).
  { unfold ols_slope, closed_form_beta.
    destruct (Qeq_bool (Qcov xs xs) 0) eqn:Hc.
    - apply Qeq_bool_eq in Hc. rewrite Qcov_xx_plain in Hc. contradiction.
    - by rewrite Qred_correct, Qcov_xy_plain, Qcov_xx_plain. }
  split; [exact Hslope|].
  unfold ols_intercept, closed_form_alpha.
  by rewrite Qred_correct, Hslope, !Qmean_plain.
Qed.

End Transfer.

(** ** The estimation window and the fit (lines 66-80) *)

Lemma loc_rows_estimation_window (returns : frame) (d : Z) :
  rows (loc returns (d - 200) (d - 10)) = estimation_window_rows returns d.
Proof.
  unfold loc, estimation_window_rows. simpl. apply list_filter_iff.
  intros r. unfold in_window. rewrite andb_true_iff, !Z.leb_le. reflexivity.
Qed.

Lemma estimation_guard (returns : frame) (sym benchmark : string) (d : Z) :
  let est_data := loc returns (d - 200) (d - 10) in
  frame_empty est_data
    || negb (has_column est_data benchmark)
    || negb (has_column est_data sym) = true ↔
  estimation_window_rows returns d = [] ∨
  benchmark ∉ columns returns ∨ sym ∉ columns returns.
Proof.
  intros est_data. unfold frame_empty, has_column.
  rewrite !orb_true_iff, !negb_true_iff, !bool_decide_eq_false.
  unfold est_data. rewrite loc_rows_estimation_window.
  change (columns (loc returns (d - 200) (d - 10))) with (columns returns).
  split.
  - intros [[H|H]|H]; [|by auto|by auto].
    destruct (estimation_window_rows returns d); [by left|].
    destruct (columns returns); [|done]. right. left. apply not_elem_of_nil.
  - intros [H|[H|H]]; [|by auto|by auto].
    rewrite H. by left; left.
Qed.

Lemma forallb_isfinite_map {A} (f g : A → fl) (l : list A) :
  forallb (λ r, isfinite (f r) && isfinite (g r)) l = true →
  forallb isfinite (map f l) = true ∧ forallb isfinite (map g l) = true.
Proof.
  induction l as [|r l IH]; simpl; [done|].
  rewrite !andb_true_iff. intros [[Hf Hg] Hl]. destruct (IH Hl). done.
Qed.

Lemma linear_regression_fit_finite
    (degenerate_slope : list Q → list Q → Q) (X y : list fl) :
  forallb isfinite X = true → forallb isfinite y = true →
  length X = length y → X ≠ [] →
  linear_regression_fit degenerate_slope X y =
  Ok (Fin (ols_intercept degenerate_slope (map to_Q X) (map to_Q y)),
      Fin (ols_slope degenerate_slope (map to_Q X) (map to_Q y))).
Proof.
  intros HX Hy Hlen Hne. unfold linear_regression_fit.
  rewrite HX, Hy. simpl. rewrite <- Hlen, Nat.eqb_refl. simpl.
  destruct X; [done|reflexivity].
Qed.

Section EstimationWindow.

Variable benchmark : string.
Variable returns : frame.
Variable sym : string.
Variable d : Z.
Variable degenerate_slope : list Q → list Q → Q.

Local Notation est_rows := (estimation_window_rows returns d).
Local Notation X := (map (return_of returns benchmark) est_rows).
Local Notation y := (map (return_of returns sym) est_rows).

Lemma market_model_unfolded (fit : list fl → list fl → outcome (fl * fl)) :
  if frame_empty (loc returns (d - 200) (d - 10))
     || negb (has_column (loc returns (d - 200) (d - 10)) benchmark)
     || negb (has_column (loc returns (d - 200) (d - 10)) sym)
  then market_model fit benchmark returns sym (d - 200) (d - 10) = (Ok None, [])
  else market_model fit benchmark returns sym (d - 200) (d - 10) =
       (match fit X y with
        | Ok model => Ok (Some model)
        | Raised e => Raised e
        end, [EvFit X y]).
Proof.
  pose proof (market_model_cases fit benchmark returns sym
                (d - 200) (d - 10)) as Hmodel.
  cbv zeta in Hmodel. unfold column_values in Hmodel.
  rewrite loc_rows_estimation_window in Hmodel. exact Hmodel.
Qed.

Lemma market_model_null_window (fit : list fl → list fl → outcome (fl * fl)) :
  est_rows = [] ∨ benchmark ∉ columns returns ∨ sym ∉ columns returns →
  market_model fit benchmark returns sym (d - 200) (d - 10) = (Ok None, []).
Proof.
  intros Hnull. apply estimation_guard in Hnull.
  pose proof (market_model_unfolded fit) as Hmodel.
  by rewrite Hnull in Hmodel.
Qed.

Lemma market_model_fits_window :
  est_rows ≠ [] → benchmark ∈ columns returns → sym ∈ columns returns →
  finite_between returns sym benchmark (d - 200) (d - 10) = true →
  market_model (linear_regression_fit degenerate_slope) benchmark returns sym
    (d - 200) (d - 10) =
    (Ok (Some (Fin (ols_intercept degenerate_slope (map to_Q X) (map to_Q y)),
               Fin (ols_slope degenerate_slope (map to_Q X) (map to_Q y)))), [EvFit X y]) ∧
  length (map to_Q X) = length (map to_Q y) ∧ map to_Q X ≠ [].
Proof.
  intros Hrows Hb Hs Hfin.
  pose proof (market_model_unfolded (linear_regression_fit degenerate_slope))
    as Hmodel.
  match type of Hmodel with (if ?g then _ else _) =>
    assert (Hg : g = false)
      by (apply not_true_is_false; intros Hg;
          apply estimation_guard in Hg as [Hg|[Hg|Hg]]; contradiction);
    rewrite Hg in Hmodel
  end.
  unfold finite_between in Hfin. rewrite loc_rows_estimation_window in Hfin.
  apply forallb_isfinite_map in Hfin as [Hy HX].
  assert (Hlen : length X = length y) by (by rewrite !length_map).
  assert (HXne : X ≠ []) by (by destruct est_rows).
  rewrite (linear_regression_fit_finite degenerate_slope X y HX Hy Hlen HXne)
    in Hmodel.
  split; [exact Hmodel|]. split; [by rewrite !length_map|].
  by destruct est_rows.
Qed.

End EstimationWindow.

(** C2.  For a trade that reaches the model-fit step (its windows are
    Timestamps, the fetch succeeded, the floor is met), with
    [LinearRegression] as the regression routine, whatever it returns on a
    rank-deficient sample: if no return row is dated
    in the closed window from 200 to 10 days before the trade, or the
    benchmark or the asset has no column, the result is null and nothing is
    fitted.  Otherwise the routine is called once, on the benchmark and
    asset returns of exactly those rows; on finite returns it answers with
    an intercept and a slope whose residual sum of squares is at most that
    of every other line, and which are the closed-form solution whenever
    the benchmark returns are not all equal. *)
Theorem market_model_is_ols_on_estimation_window
    (download : list string → Z → Z → outcome frame)
    (degenerate_slope : list Q → list Q → Q) (benchmark : string)
    (raw : string) (d w : Z) (data : frame) :
  let sym := yahoo_symbol raw in
  let returns := dropna (pct_change data) in
  let est_rows := estimation_window_rows returns d in
  let X := map (return_of returns benchmark) est_rows in
  let y := map (return_of returns sym) est_rows in
  let fetch := EvDownload [sym; benchmark] (d - 200) (d + w + 5) in
  skip_ticker (PyStr raw) = false →
  window_in_bounds d w = true →
  download [sym; benchmark] (d - 200) (d + w + 5) = Ok data →
  (50 ≤ frame_len returns)%nat →
  (est_rows = [] ∨ benchmark ∉ columns returns ∨ sym ∉ columns returns →
   calculate_car download (linear_regression_fit degenerate_slope) benchmark
     (PyStr raw) (Some d) w = (Ok None, [fetch])) ∧
  (est_rows ≠ [] → benchmark ∈ columns returns → sym ∈ columns returns →
   finite_between returns sym benchmark (d - 200) (d - 10) = true →
   ∃ alpha beta,
     market_model (linear_regression_fit degenerate_slope) benchmark returns
       sym (d - 200) (d - 10)
       = (Ok (Some (Fin alpha, Fin beta)), [EvFit X y]) ∧
     calculate_car download (linear_regression_fit degenerate_slope) benchmark
       (PyStr raw) (Some d) w
       = (Ok (event_car benchmark returns sym d (d + w) (Fin alpha) (Fin beta)),
          [fetch; EvFit X y]) ∧
     (∀ a b, (sse alpha beta (map to_Q X) (map to_Q y)
              <= sse a b (map to_Q X) (map to_Q y))%Q) ∧
     (¬ (plain_sum (zip_with
           (λ x x', (x - plain_mean (map to_Q X)) * (x' - plain_mean (map to_Q X)))
           (map to_Q X) (map to_Q X)) == 0)%Q →
      (beta == closed_form_beta (map to_Q X) (map to_Q y))%Q ∧
      (alpha == closed_form_alpha (map to_Q X) (map to_Q y))%Q)).
Proof.
  intros sym returns est_rows X y fetch Hraw Hw Hdata Hlen.
  pose proof (calculate_car_after_floor download
                (linear_regression_fit degenerate_slope)
                benchmark raw d w data Hraw Hw Hdata Hlen) as Hrun.
  cbv zeta in Hrun. fold sym returns in Hrun.
  split.
  - intros Hnull.
    by rewrite Hrun, (market_model_null_window benchmark returns sym d).
  - intros Hrows Hb Hs Hfin.
    destruct (market_model_fits_window benchmark returns sym d
                degenerate_slope Hrows Hb Hs Hfin)
      as (Hmodel & Hq & Hqne).
    exists (ols_intercept degenerate_slope (map to_Q X) (map to_Q y)),
           (ols_slope degenerate_slope (map to_Q X) (map to_Q y)).
    split; [exact Hmodel|]. split; [by rewrite Hrun, Hmodel|]. split.
    + intros a b. by apply ols_least_squares.
    + intros Hden. by apply ols_closed_form.
Qed.

Lemma market_model_is_ols_on_estimation_window_witness :
  calculate_car late_download (linear_regression_fit minimum_norm) "^GSPC"
    (PyStr "aapl") (Some 19000) 30 =
    (Ok None, [EvDownload ["AAPL"; "^GSPC"] 18800 19035]) ∧
  ∃ alpha beta X y,
    market_model (linear_regression_fit minimum_norm) "^GSPC"
      (dropna (pct_change (mkFrame ["AAPL"; "^GSPC"] (demo_prices 18960 60))))
      "AAPL" 18800 18990 = (Ok (Some (Fin alpha, Fin beta)), [EvFit X y]) ∧
    ∀ a b, (sse alpha beta (map to_Q X) (map to_Q y)
            <= sse a b (map to_Q X) (map to_Q y))%Q.
Proof.
  split.
  - refine (proj1 (market_model_is_ols_on_estimation_window late_download
              minimum_norm "^GSPC" "aapl" 19000 30 _ eq_refl eq_refl eq_refl _) _).
    + vm_compute. lia.
    + left. vm_compute. reflexivity.
  - edestruct (proj2 (market_model_is_ols_on_estimation_window demo_download
                 minimum_norm "^GSPC" "aapl" 19000 30 _ eq_refl eq_refl eq_refl
                 ltac:(vm_compute; lia)))
      as (alpha & beta & Hmodel & _ & Hls & _).
    + vm_compute. discriminate.
    + cbn [columns dropna pct_change]. rewrite !elem_of_cons.
      right. left. reflexivity.
    + cbn [columns dropna pct_change]. rewrite !elem_of_cons.
      left. reflexivity.
    + vm_compute. reflexivity.
    + exists alpha, beta. eexists _, _. split; [exact Hmodel | exact Hls].
Defined.

(** ** A sample in which every return is the same *)

Section ConstantSample.

Local Open Scope Q_scope.

Variables xs ys : list Q.
Variable c : Q.
Variable degenerate_slope : list Q → list Q → Q.
Hypothesis same_length : length xs = length ys.
Hypothesis nonempty : xs ≠ [].
Hypothesis xs_constant : Forall (λ x, x == c) xs.
Hypothesis ys_constant : Forall (λ y, y == c) ys.

Local Notation ps := (zip xs ys).
Local Notation N := (inject_Z (Z.of_nat (length ps))).

Lemma constant_sample_points (r : Q * Q) : r ∈ ps → r.1 == c ∧ r.2 == c.
Proof.
  destruct r as [x y]. intros Hr. split; simpl.
  - apply elem_of_zip_l in Hr. by apply (proj1 (Forall_forall _ _) xs_constant).
  - apply elem_of_zip_r in Hr. by apply (proj1 (Forall_forall _ _) ys_constant).
Qed.

Lemma psum_of_constant (f : Q * Q → Q) (k : Q) :
  (∀ r, r ∈ ps → f r == k) → psum ps f == k * N.
Proof.
  intros Hf.
  rewrite (psum_ext ps f (λ r, k + 0 * r.1 + 0 * r.2 + 0 * (r.1 * r.1)
                               + 0 * (r.1 * r.2) + 0 * (r.2 * r.2))).
  - rewrite quadratic_sum. ring.
  - intros r Hr. rewrite (Hf r Hr). ring.
Qed.

Lemma constant_sample_mean_xs : Qmean xs == c.
Proof.
  rewrite (Qmean_xs xs ys same_length).
  rewrite (psum_of_constant (λ r, r.1) c)
    by (intros r Hr; by apply constant_sample_points).
  field. apply sample_size_nonzero. by apply sample_nonempty.
Qed.

Lemma constant_sample_mean_ys : Qmean ys == c.
Proof.
  rewrite (Qmean_ys xs ys same_length).
  rewrite (psum_of_constant (λ r, r.2) c)
    by (intros r Hr; by apply constant_sample_points).
  field. apply sample_size_nonzero. by apply sample_nonempty.
Qed.

(** With a constant regressor the centred system is zero, and whatever
    slope the solver returns the fitted line passes through the point
    ([c], [c]). *)
Lemma ols_on_constant_sample :
  ols_intercept degenerate_slope xs ys + ols_slope degenerate_slope xs ys * c
    == c.
Proof.
  unfold ols_intercept.
  rewrite Qred_correct, constant_sample_mean_xs, constant_sample_mean_ys.
  ring.
Qed.

End ConstantSample.

Lemma plain_sum_zeros {A} (l : list A) :
  (plain_sum (map (λ _, 0) l) == 0)%Q.
Proof.
  unfold plain_sum. induction l as [|x l IH]; simpl; [reflexivity|]. rewrite IH. ring.
Qed.

Lemma constant_between_rows (returns : frame) (sym benchmark : string)
    (lo hi : Z) (c : Q) :
  constant_between returns sym benchmark lo hi c = true →
  Forall (λ r, ∃ a m, return_of returns sym r = Fin a ∧
                      return_of returns benchmark r = Fin m ∧
                      (a == c)%Q ∧ (m == c)%Q)
         (rows (loc returns lo hi)).
Proof.
  unfold constant_between. rewrite forallb_true_Forall.
  intros H. eapply Forall_impl; [exact H|]. clear H. intros r Hr. simpl in Hr.
  destruct (return_of returns sym r) as [a| | |]; try discriminate.
  destruct (return_of returns benchmark r) as [m| | |]; try discriminate.
  apply andb_true_iff in Hr as [Ha Hm].
  exists a, m. by rewrite <- !Qeq_bool_iff.
Qed.

Lemma constant_between_finite (returns : frame) (sym benchmark : string)
    (lo hi : Z) (c : Q) :
  constant_between returns sym benchmark lo hi c = true →
  finite_between returns sym benchmark lo hi = true.
Proof.
  intros H. apply constant_between_rows in H.
  unfold finite_between. apply forallb_true_Forall.
  eapply Forall_impl; [exact H|]. intros r (a & m & -> & -> & _). reflexivity.
Qed.

Lemma constant_between_columns (returns : frame) (sym benchmark : string)
    (lo hi : Z) (c : Q) :
  constant_between returns sym benchmark lo hi c = true →
  Forall (λ x, (x == c)%Q)
    (map to_Q (map (return_of returns benchmark) (rows (loc returns lo hi)))) ∧
  Forall (λ x, (x == c)%Q)
    (map to_Q (map (return_of returns sym) (rows (loc returns lo hi)))).
Proof.
  intros H. apply constant_between_rows in H.
  induction H as [|r l (a & m & Ha & Hm & Hac & Hmc) _ [IHb IHs]]; simpl.
  - split; constructor.
  - rewrite Ha, Hm. split; constructor; done.
Qed.

(** * Further properties of the code *)

(** ** Ticker sanitising (metrics.py line 37, shared by the other modules) *)

Lemma upper_string_map (s : string) : upper s = string_map upper_char s.
Proof. induction s as [|c s IH]; simpl; by rewrite ?IH. Qed.

Lemma replace_string_map (old new : ascii) (s : string) :
  replace old new s = string_map (λ c, if Ascii.eqb c old then new else c) s.
Proof. induction s as [|c s IH]; simpl; by rewrite ?IH. Qed.

Lemma string_map_compose (f g : ascii → ascii) (s : string) :
  string_map f (string_map g s) = string_map (λ c, f (g c)) s.
Proof. induction s as [|c s IH]; simpl; by rewrite ?IH. Qed.

Lemma string_map_ext (f g : ascii → ascii) (s : string) :
  (∀ c, f c = g c) → string_map f s = string_map g s.
Proof. intros H. induction s as [|c s IH]; simpl; by rewrite ?IH, ?H. Qed.

Lemma sanitize_string_map (s : string) :
  sanitize s = string_map sanitize_char (strip s).
Proof.
  unfold sanitize. rewrite upper_string_map, !replace_string_map.
  by rewrite !string_map_compose.
Qed.

Ltac each_ascii c :=
  destruct c as [[|] [|] [|] [|] [|] [|] [|] [|]]; vm_compute; try reflexivity.

Lemma sanitize_char_idempotent (c : ascii) :
  sanitize_char (sanitize_char c) = sanitize_char c.
Proof. each_ascii c. Qed.

Lemma sanitize_char_isspace (c : ascii) :
  isspace (sanitize_char c) = isspace c.
Proof. each_ascii c. Qed.

Section StripAndMap.

Variable f : ascii → ascii.
Hypothesis f_isspace : ∀ c, isspace (f c) = isspace c.

Lemma lstrip_string_map (s : string) :
  lstrip (string_map f s) = string_map f (lstrip s).
Proof.
  induction s as [|c s IH]; simpl; [reflexivity|].
  rewrite f_isspace. by destruct (isspace c).
Qed.

Lemma rstrip_string_map (s : string) :
  rstrip (string_map f s) = string_map f (rstrip s).
Proof.
  induction s as [|c s IH]; simpl; [reflexivity|].
  rewrite IH, f_isspace. destruct (rstrip s); simpl; [|reflexivity].
  by destruct (isspace c).
Qed.

Lemma strip_string_map (s : string) :
  strip (string_map f s) = string_map f (strip s).
Proof. unfold strip. by rewrite lstrip_string_map, rstrip_string_map. Qed.

End StripAndMap.

Lemma rstrip_idempotent (s : string) : rstrip (rstrip s) = rstrip s.
Proof.
  induction s as [|c s IH]; simpl; [reflexivity|].
  destruct (rstrip s) as [|c' r] eqn:Hr.
  - destruct (isspace c) eqn:Hc; simpl; [reflexivity|]. by rewrite Hc.
  - simpl. simpl in IH. by rewrite IH.
Qed.

(** A string that does not start with a blank keeps its first character
    when blanks are cut off its end. *)
Lemma lstrip_rstrip_lstrip (s : string) :
  lstrip (rstrip (lstrip s)) = rstrip (lstrip s).
Proof.
  induction s as [|c s IH]; simpl; [reflexivity|].
  destruct (isspace c) eqn:Hc; [exact IH|].
  simpl. destruct (rstrip s); simpl; rewrite ?Hc; simpl; by rewrite ?Hc.
Qed.

Lemma strip_idempotent (s : string) : strip (strip s) = strip s.
Proof.
  unfold strip. by rewrite lstrip_rstrip_lstrip, rstrip_idempotent.
Qed.

Lemma sanitize_idempotent (s : string) : sanitize (sanitize s) = sanitize s.
Proof.
  rewrite !sanitize_string_map.
  rewrite (strip_string_map _ sanitize_char_isspace), strip_idempotent.
  rewrite string_map_compose. apply string_map_ext, sanitize_char_idempotent.
Qed.

Lemma TICKER_MAP_lookup (k v : string) :
  TICKER_MAP !! k = Some v →
  (k = "$BTC" ∧ v = "BTC-USD") ∨ (k = "VWUSX:US" ∧ v = "VWUSX") ∨
  (k = "XSP" ∧ v = "SPY").
Proof.
  unfold TICKER_MAP. rewrite !lookup_insert_Some, lookup_singleton_Some.
  intros [[<- <-]|[_ [[<- <-]|[_ [<- <-]]]]]; auto.
Qed.

(** X1.  Sanitising is idempotent, and so is the whole symbol
    normalisation with the remap table: the symbol that [calculate_car]
    fetches, handed back as a ticker, is fetched under the same name. *)
Theorem yahoo_symbol_idempotent (raw : string) :
  sanitize (sanitize raw) = sanitize raw ∧
  yahoo_symbol (yahoo_symbol raw) = yahoo_symbol raw.
Proof.
  split; [apply sanitize_idempotent|].
  unfold yahoo_symbol at 2 3. unfold dict_get.
  destruct (TICKER_MAP !! sanitize raw) as [v|] eqn:Hv.
  - apply TICKER_MAP_lookup in Hv as [[_ ->]|[[_ ->]|[_ ->]]];
      vm_compute; reflexivity.
  - unfold yahoo_symbol, dict_get. by rewrite sanitize_idempotent, Hv.
Qed.

Lemma chars_string_map (f : ascii → ascii) (s : string) :
  chars (string_map f s) = map f (chars s).
Proof. induction s as [|c s IH]; simpl; by rewrite ?IH. Qed.

Lemma sanitize_char_alphabet (c : ascii) :
  sanitize_char c ≠ "/"%char ∧ sanitize_char c ≠ "."%char ∧
  is_lower (sanitize_char c) = false.
Proof. each_ascii c; repeat split; discriminate. Qed.

(** X2.  The symbol handed to the price provider never contains a slash,
    a dot or a lowercase letter, and has no blank at either end. *)
Theorem yahoo_symbol_alphabet (raw : string) :
  Forall (λ c, c ≠ "/"%char ∧ c ≠ "."%char ∧ is_lower c = false)
         (chars (yahoo_symbol raw)) ∧
  strip (yahoo_symbol raw) = yahoo_symbol raw.
Proof.
  unfold yahoo_symbol, dict_get.
  destruct (TICKER_MAP !! sanitize raw) as [v|] eqn:Hv.
  - apply TICKER_MAP_lookup in Hv as [[_ ->]|[[_ ->]|[_ ->]]];
      (split; [|vm_compute; reflexivity]);
      repeat constructor; discriminate.
  - split.
    + rewrite sanitize_string_map, chars_string_map.
      apply Forall_fmap, Forall_true. intros c. apply sanitize_char_alphabet.
    + rewrite sanitize_string_map at 1.
      rewrite (strip_string_map _ sanitize_char_isspace), strip_idempotent.
      by rewrite sanitize_string_map.
Qed.

(** ** The shape of an evaluation (metrics.py lines 24-116) *)

Section TraceShape.

Variable download : list string → Z → Z → outcome frame.
Variable fit : list fl → list fl → outcome (fl * fl).
Variable benchmark : string.

Lemma market_model_trace returns sym lo hi :
  ∃ r t, market_model fit benchmark returns sym lo hi = (r, t) ∧
    ((r = Ok None ∧ t = []) ∨
     (∃ X y model, r = Ok (Some model) ∧ t = [EvFit X y]) ∨
     (∃ X y e, r = Raised e ∧ t = [EvFit X y])).
Proof.
  pose proof (market_model_cases fit benchmark returns sym lo hi) as H.
  cbv zeta in H. destruct (_ || _ || _).
  - eexists _, _. split; [exact H|]. by left.
  - eexists _, _. split; [exact H|]. right.
    destruct (fit _ _) as [model|e]; [left|right]; eauto.
Qed.

Lemma calculate_car_trace raw d w :
  skip_ticker (PyStr raw) = false →
  window_in_bounds d w = true →
  ∃ v t, calculate_car download fit benchmark (PyStr raw) (Some d) w =
           (Ok v, EvDownload [yahoo_symbol raw; benchmark] (d - 200) (d + w + 5)
                    :: t) ∧
         after_download (yahoo_symbol raw) v t.
Proof.
  intros Hraw Hw. rewrite calculate_car_valid by done.
  unfold car_body, call_download, after_download.
  destruct (download _ _ _) as [data|e].
  - rewrite bind_ok. cbn [fst snd].
    destruct (_ <? _)%nat.
    { eexists _, _. split; [reflexivity|]. by left. }
    destruct (market_model_trace (dropna (pct_change data))
                (yahoo_symbol raw) (d - 200) (d - 10))
      as (r & t & -> & [[-> ->]|[(X & y & [alpha beta] & -> & ->)
                                |(X & y & e & -> & ->)]]).
    + eexists _, _. split; [reflexivity|]. by left.
    + eexists _, _. split; [reflexivity|]. right; right; left; eauto.
    + eexists _, _. split; [reflexivity|]. right; right; right; eauto.
  - eexists _, _. split; [reflexivity|]. right; left; eauto.
Qed.

Lemma calculate_car_evaluation (row : trade) (w : Z) :
  evaluation_shape benchmark row w
    (calculate_car download fit benchmark (ticker row) (transaction_date row) w).
Proof.
  unfold evaluation_shape, evaluated_symbol.
  destruct (ticker row) as [raw| | |] eqn:Htk,
           (transaction_date row) as [d|] eqn:Hd;
    try reflexivity.
  destruct (skip_ticker (PyStr raw)) eqn:Hs.
  { apply calculate_car_skipped. by right. }
  destruct (window_dates_ok d w) eqn:Hw.
  - destruct (is_timestamp (d + w + 5)) eqn:H5.
    + apply calculate_car_trace; [done|].
      apply window_in_bounds_spec. by split.
    + by apply calculate_car_no_fetch_end.
  - by apply calculate_car_out_of_bounds.
Qed.

Lemma downloads_of_evaluation (row : trade) :
  row_raises row = false →
  downloads
    (calculate_car download fit benchmark (ticker row) (transaction_date row) 30).2
  = match requested benchmark row with
    | Some request => [request]
    | None => []
    end.
Proof.
  intros Hrow. pose proof (calculate_car_evaluation row 30) as Hrun.
  unfold evaluation_shape in Hrun. unfold requested.
  unfold row_raises, escapes in Hrow. unfold evaluated_symbol in *.
  destruct (transaction_date row) as [d|]; [|destruct (ticker row); by rewrite Hrun].
  destruct (ticker row) as [raw| | |]; try by rewrite Hrun.
  destruct (skip_ticker (PyStr raw)); [by rewrite Hrun|].
  cbn [negb andb] in Hrow. apply negb_false_iff in Hrow. rewrite Hrow in Hrun.
  destruct (is_timestamp (d + 30 + 5)).
  - destruct Hrun as (v & rest & -> & Hrest). cbn [snd]. simpl. f_equal.
    destruct Hrest as [->|[(e & -> & _)|[(X & y & ->)|(X & y & e & -> & _)]]];
      reflexivity.
  - destruct Hrun as (e & ->). reflexivity.
Qed.

Lemma downloads_app (t1 t2 : list event) :
  downloads (t1 ++ t2) = downloads t1 ++ downloads t2.
Proof. apply omap_app. Qed.

Lemma downloads_of_rows (l : list trade) :
  Forall (λ row, row_raises row = false) l →
  downloads
    (concat (map (λ row, (calculate_car download fit benchmark
                            (ticker row) (transaction_date row) 30).2) l))
  = omap (requested benchmark) l.
Proof.
  induction 1 as [|r rs Hr _ IH]; [reflexivity|].
  cbn [map concat]. rewrite downloads_app, IH, (downloads_of_evaluation r Hr).
  cbn [omap list_omap]. by destruct (requested benchmark r).
Qed.

End TraceShape.

(** X3.  What one evaluation does, for every trade, provider and
    regression routine.  When line 29 or line 33 returns early the result is
    null and nothing happens.  When the estimation start, the estimation
    end or the event end is not a Timestamp, an exception leaves
    [calculate_car] and nothing has happened.  When only the end of the
    fetch is none, the result is null after one debug line.  Otherwise the
    trace starts with one download of the symbol and the benchmark from 200
    days before the trade to 5 days after the horizon, followed by nothing,
    by a debug line, by one fit, or by one fit and a debug line; and
    whenever a debug line was written the result is null.  So the provider
    is never called twice and nothing is fitted without a fetch. *)
Theorem calculate_car_trace_shape
    (download : list string → Z → Z → outcome frame)
    (fit : list fl → list fl → outcome (fl * fl)) (benchmark : string)
    (row : trade) (w : Z) :
  evaluation_shape benchmark row w
    (calculate_car download fit benchmark (ticker row) (transaction_date row) w).
Proof. apply calculate_car_evaluation. Qed.

(** X4.  The requests of a batch are those of the rows evaluated to the
    end, in row order: one request for each row that has a date and a
    ticker passing line 33 and whose fetch end is a Timestamp, and none for
    any other row; the rows evaluated to the end are those before the first
    row on which [calculate_car] raises, all of them if there is none.
    Nothing is remembered between rows, so a ticker that occurs in several
    rows is fetched once per row. *)
Theorem analyze_batch_fetches_once_per_row
    (download : list string → Z → Z → outcome frame)
    (fit : list fl → list fl → outcome (fl * fl)) (benchmark : string)
    (df : dataframe) :
  downloads (analyze_batch download fit benchmark df).2 =
  omap (requested benchmark) (completed_rows (df_rows df)).
Proof.
  destruct (df_rows df) as [|row l] eqn:Hrows.
  { unfold analyze_batch. by rewrite Hrows. }
  rewrite analyze_batch_trace by (by rewrite Hrows).
  rewrite <- Hrows.
  change (downloads (EvDebugBatch ?n :: ?t)) with (downloads t).
  apply downloads_of_rows, completed_rows_do_not_raise.
Qed.

(** ** The floor and the windows (metrics.py lines 60-98) *)

Lemma returns_shorter_than_prices (data : frame) :
  rectangular data = true →
  (frame_len (dropna (pct_change data)) ≤ frame_len data - 1)%nat.
Proof.
  intros Hrect.
  destruct (returns_skip_first_row data Hrect) as (rest & Hrows & Hdates).
  unfold frame_len. rewrite Hrows.
  etrans; [apply length_filter|].
  apply (f_equal length) in Hdates. rewrite length_map in Hdates.
  rewrite Hdates. destruct (rows data); simpl; rewrite ?length_map; lia.
Qed.

Lemma calculate_car_below_floor
    (download : list string → Z → Z → outcome frame)
    (fit : list fl → list fl → outcome (fl * fl)) (benchmark : string)
    (raw : string) (d w : Z) (data : frame) :
  skip_ticker (PyStr raw) = false →
  window_in_bounds d w = true →
  download [yahoo_symbol raw; benchmark] (d - 200) (d + w + 5) = Ok data →
  (frame_len (dropna (pct_change data)) < 50)%nat →
  calculate_car download fit benchmark (PyStr raw) (Some d) w =
    (Ok None, [EvDownload [yahoo_symbol raw; benchmark] (d - 200) (d + w + 5)]).
Proof.
  intros Hraw Hw Hdata Hlen. rewrite calculate_car_valid by done.
  unfold car_body, call_download. rewrite Hdata, bind_ok.
  apply Nat.ltb_lt in Hlen. by rewrite Hlen.
Qed.

(** X5.  Each return needs the price of the day before, so the floor of 50
    returns is a floor of 51 prices: when the provider answers (to a trade
    whose windows are Timestamps) with a rectangular table of at most 50
    rows the result is null and nothing is fitted. *)
Theorem fifty_prices_are_not_enough
    (download : list string → Z → Z → outcome frame)
    (fit : list fl → list fl → outcome (fl * fl)) (benchmark : string)
    (raw : string) (d w : Z) (data : frame) :
  skip_ticker (PyStr raw) = false →
  window_in_bounds d w = true →
  download [yahoo_symbol raw; benchmark] (d - 200) (d + w + 5) = Ok data →
  rectangular data = true →
  (frame_len data ≤ 50)%nat →
  calculate_car download fit benchmark (PyStr raw) (Some d) w =
    (Ok None, [EvDownload [yahoo_symbol raw; benchmark] (d - 200) (d + w + 5)]).
Proof.
  intros Hraw Hw Hdata Hrect Hlen.
  apply calculate_car_below_floor with (data := data); try done.
  pose proof (returns_shorter_than_prices data Hrect) as Hret. lia.
Qed.

Lemma fifty_prices_are_not_enough_witness :
  let data := mkFrame ["AAPL"; "^GSPC"] (demo_prices 18960 50) in
  rectangular data = true ∧ frame_len data = 50%nat ∧
  calculate_car (λ symbols _ _, Ok (mkFrame symbols (demo_prices 18960 50)))
    (linear_regression_fit minimum_norm) "^GSPC" (PyStr "aapl")
    (Some 19000) 30 =
    (Ok None, [EvDownload ["AAPL"; "^GSPC"] 18800 19035]).
Proof.
  intros data. split; [by vm_compute|]. split; [by vm_compute|].
  apply (fifty_prices_are_not_enough _ (linear_regression_fit minimum_norm)
           "^GSPC" "aapl" 19000 30 data); reflexivity.
Defined.

(** X6.  The result depends on the fetched prices only through the
    returns dated in the estimation window and in the event window (and
    through the floor being met): two providers whose return tables agree
    on these two windows give the same result and the same trace, whatever
    they say about the gap between the windows and the days after the
    horizon. *)
Theorem car_depends_only_on_the_two_windows
    (download1 download2 : list string → Z → Z → outcome frame)
    (fit : list fl → list fl → outcome (fl * fl)) (benchmark : string)
    (raw : string) (d w : Z) (data1 data2 : frame) :
  let sym := yahoo_symbol raw in
  let returns1 := dropna (pct_change data1) in
  let returns2 := dropna (pct_change data2) in
  skip_ticker (PyStr raw) = false →
  download1 [sym; benchmark] (d - 200) (d + w + 5) = Ok data1 →
  download2 [sym; benchmark] (d - 200) (d + w + 5) = Ok data2 →
  (50 ≤ frame_len returns1)%nat → (50 ≤ frame_len returns2)%nat →
  loc returns1 (d - 200) (d - 10) = loc returns2 (d - 200) (d - 10) →
  loc returns1 d (d + w) = loc returns2 d (d + w) →
  calculate_car download1 fit benchmark (PyStr raw) (Some d) w =
  calculate_car download2 fit benchmark (PyStr raw) (Some d) w.
Proof.
  intros sym returns1 returns2 Hraw Hd1 Hd2 Hl1 Hl2 Hest Hevt.
  destruct (window_in_bounds d w) eqn:Hw; cycle 1.
  { (* the dates are computed before any download *)
    unfold calculate_car. rewrite Hraw. unfold window_in_bounds in Hw.
    destruct (window_dates_ok d w) eqn:Hok.
    - cbn [andb] in Hw.
      apply window_dates_ok_spec in Hok as (H1 & H2 & H3).
      rewrite (timestamp_sub_ok _ _ H1), (timestamp_sub_ok _ _ H2),
        (timestamp_add_ok _ _ H3), !bind_ret.
      unfold timestamp_add. by rewrite Hw.
    - unfold window_dates_ok in Hok. unfold timestamp_sub, timestamp_add.
      destruct (is_timestamp (d - 200)); [|done]. rewrite !bind_ret.
      destruct (is_timestamp (d - 10)); [|done]. rewrite !bind_ret.
      destruct (is_timestamp (d + w)); [discriminate|done]. }
  rewrite (calculate_car_after_floor download1 fit benchmark raw d w data1),
          (calculate_car_after_floor download2 fit benchmark raw d w data2)
    by done.
  fold sym returns1 returns2. cbv zeta.
  assert (Hmodel :
    market_model fit benchmark returns1 sym (d - 200) (d - 10) =
    market_model fit benchmark returns2 sym (d - 200) (d - 10))
    by (unfold market_model; by rewrite Hest).
  rewrite Hmodel.
  destruct (market_model fit benchmark returns2 sym (d - 200) (d - 10))
    as [[[[alpha beta]|]|e] t]; try reflexivity.
  unfold event_car. by rewrite Hevt.
Qed.

Lemma car_depends_only_on_the_two_windows_witness :
  demo_download ["AAPL"; "^GSPC"] 18800 19035 ≠
    bumped_download ["AAPL"; "^GSPC"] 18800 19035 ∧
  calculate_car demo_download (linear_regression_fit minimum_norm) "^GSPC"
    (PyStr "aapl") (Some 19000) 30 =
  calculate_car bumped_download (linear_regression_fit minimum_norm) "^GSPC"
    (PyStr "aapl") (Some 19000) 30.
Proof.
  split; [vm_compute; discriminate|].
  apply (car_depends_only_on_the_two_windows demo_download bumped_download
           (linear_regression_fit minimum_norm) "^GSPC" "aapl" 19000 30 _ _
           eq_refl eq_refl eq_refl).
  - vm_compute. lia.
  - vm_compute. lia.
  - vm_compute. reflexivity.
  - vm_compute. reflexivity.
Defined.

(** ** An asset that moves exactly with the benchmark *)

Section IdenticalSample.

Local Open Scope Q_scope.

Variables xs ys : list Q.
Variable degenerate_slope : list Q → list Q → Q.
Hypothesis same_length : length xs = length ys.
Hypothesis identical : ∀ r, r ∈ zip xs ys → r.2 == r.1.
Hypothesis varies : ∃ x1 x2, x1 ∈ xs ∧ x2 ∈ xs ∧ ¬ x1 == x2.

Local Notation ps := (zip xs ys).

Lemma identical_sample_means : Qmean ys == Qmean xs.
Proof.
  rewrite (Qmean_xs xs ys same_length), (Qmean_ys xs ys same_length).
  by rewrite (psum_ext ps (λ r, r.2) (λ r, r.1)).
Qed.

Lemma identical_sample_cov : Qcov xs ys == Qcov xs xs.
Proof.
  rewrite (Qcov_xy xs ys), (Qcov_xx xs ys same_length).
  apply psum_ext. intros r Hr.
  by rewrite (identical r Hr), identical_sample_means.
Qed.

Lemma varying_sample_variance : ¬ Qcov xs xs == 0.
Proof.
  intros Hc. rewrite (Qcov_xx xs ys same_length) in Hc.
  assert (Hmean : ∀ x, x ∈ xs → x == Qmean xs).
  { intros x Hx. rewrite <- (sample_xs xs ys same_length) in Hx.
    apply list_elem_of_fmap in Hx as (r & -> & Hr).
    pose proof (psum_zero_terms ps _ (λ r, Qsquare_nonneg _) Hc r Hr) as H0.
    simpl in H0. destruct (Qmult_integral _ _ H0) as [H|H];
      (assert (E : r.1 == (r.1 - Qmean xs) + Qmean xs) by ring;
       rewrite E, H; ring). }
  destruct varies as (x1 & x2 & H1 & H2 & Hne).
  apply Hne. by rewrite (Hmean x1 H1), (Hmean x2 H2).
Qed.

(** Regressing a varying sample on itself gives slope 1 and intercept 0. *)
Lemma ols_on_identical_sample :
  ols_slope degenerate_slope xs ys == 1 ∧
  ols_intercept degenerate_slope xs ys == 0.
Proof.
  pose proof varying_sample_variance as Hvar.
  assert (Hslope : ols_slope degenerate_slope xs ys == 1).
  { unfold ols_slope. destruct (Qeq_bool (Qcov xs xs) 0) eqn:Hc.
    - apply Qeq_bool_eq in Hc. contradiction.
    - rewrite Qred_correct, identical_sample_cov. by field. }
  split; [exact Hslope|].
  unfold ols_intercept.
  rewrite Qred_correct, Hslope, identical_sample_means. ring.
Qed.

End IdenticalSample.

Lemma same_between_rows (returns : frame) (sym benchmark : string) (lo hi : Z) :
  same_between returns sym benchmark lo hi = true →
  Forall (λ r, ∃ a m, return_of returns sym r = Fin a ∧
                      return_of returns benchmark r = Fin m ∧ (a == m)%Q)
         (rows (loc returns lo hi)).
Proof.
  unfold same_between. rewrite forallb_true_Forall.
  intros H. eapply Forall_impl; [exact H|]. clear H. intros r Hr. simpl in Hr.
  destruct (return_of returns sym r) as [a| | |]; try discriminate.
  destruct (return_of returns benchmark r) as [m| | |]; try discriminate.
  exists a, m. by rewrite <- Qeq_bool_iff.
Qed.

Lemma same_between_finite (returns : frame) (sym benchmark : string) (lo hi : Z) :
  same_between returns sym benchmark lo hi = true →
  finite_between returns sym benchmark lo hi = true.
Proof.
  intros H. apply same_between_rows in H.
  unfold finite_between. apply forallb_true_Forall.
  eapply Forall_impl; [exact H|]. intros r (a & m & -> & -> & _). reflexivity.
Qed.

Lemma same_between_sample (returns : frame) (sym benchmark : string)
    (l : list (Z * list fl)) :
  Forall (λ r, ∃ a m, return_of returns sym r = Fin a ∧
                      return_of returns benchmark r = Fin m ∧ (a == m)%Q) l →
  ∀ p, p ∈ zip (map to_Q (map (return_of returns benchmark) l))
               (map to_Q (map (return_of returns sym) l)) →
       (p.2 == p.1)%Q.
Proof.
  induction 1 as [|r l (a & m & Ha & Hm & Ham) _ IH]; simpl; intros p Hp.
  - by apply elem_of_nil in Hp.
  - apply elem_of_cons in Hp as [->|Hp]; [|by apply IH].
    simpl. by rewrite Ha, Hm.
Qed.

(** X7.  When the asset has the same returns as the benchmark on every
    row of the estimation window and of the event window (as the benchmark
    itself does), and the benchmark returns of the estimation window are not
    all equal, the fitted model is alpha = 0 and beta = 1 and the CAR is 0
    (null if no row is dated in the event window).  The trade date is one
    whose windows are Timestamps. *)
Theorem tracking_asset_has_zero_car
    (download : list string → Z → Z → outcome frame)
    (degenerate_slope : list Q → list Q → Q) (benchmark : string)
    (raw : string) (d w : Z) (data : frame) :
  let sym := yahoo_symbol raw in
  let returns := dropna (pct_change data) in
  skip_ticker (PyStr raw) = false →
  window_in_bounds d w = true →
  download [sym; benchmark] (d - 200) (d + w + 5) = Ok data →
  (50 ≤ frame_len returns)%nat →
  benchmark ∈ columns returns → sym ∈ columns returns →
  same_between returns sym benchmark (d - 200) (d - 10) = true →
  same_between returns sym benchmark d (d + w) = true →
  (∃ r1 r2, r1 ∈ estimation_window_rows returns d ∧
            r2 ∈ estimation_window_rows returns d ∧
            ¬ (to_Q (return_of returns benchmark r1)
               == to_Q (return_of returns benchmark r2))%Q) →
  ∃ alpha beta v t,
    market_model (linear_regression_fit degenerate_slope) benchmark returns sym
      (d - 200) (d - 10)
      = (Ok (Some (Fin alpha, Fin beta)), t) ∧
    (alpha == 0)%Q ∧ (beta == 1)%Q ∧
    calculate_car download (linear_regression_fit degenerate_slope) benchmark
      (PyStr raw) (Some d) w
      = (Ok v, EvDownload [sym; benchmark] (d - 200) (d + w + 5) :: t) ∧
    match event_window_rows returns d w with
    | [] => v = None
    | _ => ∃ car, v = Some (Fin car) ∧ (car == 0)%Q
    end.
Proof.
  intros sym returns Hraw Hw Hdata Hlen Hb Hs Hsest Hsevt
    (r1 & r2 & Hr1 & Hr2 & Hne).
  assert (Hest : estimation_window_rows returns d ≠ []).
  { intros Hnil. rewrite Hnil in Hr1. by apply elem_of_nil in Hr1. }
  destruct (market_model_fits_window benchmark returns sym d degenerate_slope
              Hest Hb Hs (same_between_finite _ _ _ _ _ Hsest))
    as (Hmodel & Hq & Hqne).
  pose proof (same_between_rows _ _ _ _ _ Hsest) as Hrows_est.
  rewrite loc_rows_estimation_window in Hrows_est.
  destruct (ols_on_identical_sample _ _ degenerate_slope Hq
              (same_between_sample _ _ _ _ Hrows_est)) as [Hslope Hicpt].
  { exists (to_Q (return_of returns benchmark r1)),
           (to_Q (return_of returns benchmark r2)).
    split; [|split; [|exact Hne]];
      apply list_elem_of_fmap; eexists; (split; [reflexivity|]);
      by apply list_elem_of_fmap_2. }
  set (alpha := ols_intercept _ _ _) in *. set (beta := ols_slope _ _ _) in *.
  assert (Hcols : columns returns ≠ []).
  { intros Hnil. rewrite Hnil in Hb. by apply elem_of_nil in Hb. }
  pose proof (event_car_is_plain_sum benchmark returns sym d w alpha beta
                Hcols (same_between_finite _ _ _ _ _ Hsevt)) as Hcar.
  pose proof (same_between_rows _ _ _ _ _ Hsevt) as Hrows.
  rewrite loc_rows_event_window in Hrows.
  assert (Hzero : (car_sum returns sym benchmark d w alpha beta == 0)%Q).
  { unfold car_sum. rewrite (plain_sum_ext _ (λ _, 0%Q)).
    - apply plain_sum_zeros.
    - intros r Hr. apply (proj1 (Forall_forall _ _) Hrows) in Hr
        as (a & m & -> & -> & Ham).
      unfold abnormal_return. simpl. rewrite Ham, Hicpt, Hslope. ring. }
  exists alpha, beta. eexists _, _. split; [exact Hmodel|].
  split; [exact Hicpt|]. split; [exact Hslope|]. split.
  - rewrite (calculate_car_after_floor download
               (linear_regression_fit degenerate_slope)
               benchmark raw d w data) by done.
    fold sym returns. cbv zeta. rewrite Hmodel. reflexivity.
  - destruct (event_window_rows returns d w) as [|r l]; [exact Hcar|].
    destruct Hcar as (q & Hq' & Hsum). exists q. split; [exact Hq'|].
    by rewrite Hsum, Hzero.
Qed.

Lemma tracking_asset_has_zero_car_witness :
  ∃ alpha beta t,
    (alpha == 0)%Q ∧ (beta == 1)%Q ∧
    ∃ car, calculate_car tracking_download
             (linear_regression_fit minimum_norm) "^GSPC"
             (PyStr "aapl") (Some 19000) 30 =
             (Ok (Some (Fin car)),
              EvDownload ["AAPL"; "^GSPC"] 18800 19035 :: t) ∧
           (car == 0)%Q.
Proof.
  edestruct (tracking_asset_has_zero_car tracking_download minimum_norm
               "^GSPC" "aapl" 19000 30)
    as (alpha & beta & v & t & _ & Ha & Hb & Hrun & Hcar).
  - reflexivity.
  - reflexivity.
  - reflexivity.
  - vm_compute. lia.
  - cbn [columns dropna pct_change]. rewrite !elem_of_cons.
    right. left. reflexivity.
  - cbn [columns dropna pct_change]. rewrite !elem_of_cons.
    left. reflexivity.
  - vm_compute. reflexivity.
  - vm_compute. reflexivity.
  - eexists (18961, _), (18962, _). split; [|split].
    + apply list_elem_of_lookup. exists 0%nat. vm_compute. reflexivity.
    + apply list_elem_of_lookup. exists 1%nat. vm_compute. reflexivity.
    + vm_compute. discriminate.
  - exists alpha, beta, t. split; [exact Ha|]. split; [exact Hb|].
    vm_compute in Hcar. destruct Hcar as (car & -> & Hcar).
    exists car. split; [exact Hrun | exact Hcar].
Defined.

(** ** An asset and a benchmark with the same constant return *)

(** X19.  When the asset and the benchmark both return the same constant
    [c] on every row of the estimation window and of the event window, the
    regression is rank-deficient: whatever slope the solver returns, the
    fitted line passes through ([c], [c]), that is [alpha + beta * c = c],
    and the CAR over the event window, whatever its length, is 0.  The
    pairs (0, 1) and ([c], 0) are two such fits. *)
Theorem equal_constant_returns_give_zero_car
    (download : list string → Z → Z → outcome frame)
    (degenerate_slope : list Q → list Q → Q) (benchmark : string)
    (raw : string) (d w : Z) (data : frame) (c : Q) :
  let sym := yahoo_symbol raw in
  let returns := dropna (pct_change data) in
  skip_ticker (PyStr raw) = false →
  window_in_bounds d w = true →
  download [sym; benchmark] (d - 200) (d + w + 5) = Ok data →
  (50 ≤ frame_len returns)%nat →
  benchmark ∈ columns returns → sym ∈ columns returns →
  estimation_window_rows returns d ≠ [] →
  event_window_rows returns d w ≠ [] →
  constant_between returns sym benchmark (d - 200) (d - 10) c = true →
  constant_between returns sym benchmark d (d + w) c = true →
  ∃ alpha beta car t,
    market_model (linear_regression_fit degenerate_slope) benchmark returns sym
      (d - 200) (d - 10)
      = (Ok (Some (Fin alpha, Fin beta)), t) ∧
    (alpha + beta * c == c)%Q ∧
    calculate_car download (linear_regression_fit degenerate_slope) benchmark
      (PyStr raw) (Some d) w
      = (Ok (Some (Fin car)),
         EvDownload [sym; benchmark] (d - 200) (d + w + 5) :: t) ∧
    (car == 0)%Q.
Proof.
  intros sym returns Hraw Hw Hdata Hlen Hb Hs Hest Hevt Hcest Hcevt.
  destruct (market_model_fits_window benchmark returns sym d degenerate_slope
              Hest Hb Hs (constant_between_finite _ _ _ _ _ _ Hcest))
    as (Hmodel & Hq & Hqne).
  destruct (constant_between_columns _ _ _ _ _ _ Hcest) as [HX Hy].
  rewrite loc_rows_estimation_window in HX, Hy.
  pose proof (ols_on_constant_sample _ _ c degenerate_slope Hq Hqne HX Hy)
    as Hline.
  set (alpha := ols_intercept _ _ _) in *. set (beta := ols_slope _ _ _) in *.
  assert (Hcols : columns returns ≠ []).
  { intros Hnil. rewrite Hnil in Hb. by apply elem_of_nil in Hb. }
  pose proof (event_car_is_plain_sum benchmark returns sym d w alpha beta
                Hcols (constant_between_finite _ _ _ _ _ _ Hcevt)) as Hcar.
  pose proof (constant_between_rows _ _ _ _ _ _ Hcevt) as Hrows.
  rewrite loc_rows_event_window in Hrows.
  assert (Hzero : (car_sum returns sym benchmark d w alpha beta == 0)%Q).
  { unfold car_sum. rewrite (plain_sum_ext _ (λ _, 0%Q)).
    - apply plain_sum_zeros.
    - intros r Hr. apply (proj1 (Forall_forall _ _) Hrows) in Hr
        as (a & m & -> & -> & Ha & Hm).
      unfold abnormal_return. simpl. rewrite Ha, Hm.
      assert (E : (c - (alpha + beta * c) == c - c)%Q) by (by rewrite Hline).
      rewrite E. ring. }
  destruct (event_window_rows returns d w) as [|r l] eqn:Hrows'; [done|].
  destruct Hcar as (q & Hq' & Hsum).
  exists alpha, beta, q. eexists. split; [exact Hmodel|].
  split; [exact Hline|]. split.
  - rewrite (calculate_car_after_floor download
               (linear_regression_fit degenerate_slope)
               benchmark raw d w data) by done.
    fold sym returns. cbv zeta. rewrite Hmodel. by rewrite Hq'.
  - by rewrite Hsum, Hzero.
Qed.

Lemma equal_constant_returns_give_zero_car_witness :
  ∃ alpha beta car t,
    market_model (linear_regression_fit (λ _ _, 1%Q)) "^GSPC"
      (dropna (pct_change (mkFrame ["AAPL"; "^GSPC"] (flat_prices 18960 60))))
      "AAPL" 18800 18990 = (Ok (Some (Fin alpha, Fin beta)), t) ∧
    (alpha + beta * 0 == 0)%Q ∧
    calculate_car flat_download (linear_regression_fit (λ _ _, 1%Q)) "^GSPC"
      (PyStr "aapl") (Some 19000) 30 =
      (Ok (Some (Fin car)), EvDownload ["AAPL"; "^GSPC"] 18800 19035 :: t) ∧
    (car == 0)%Q.
Proof.
  apply (equal_constant_returns_give_zero_car flat_download (λ _ _, 1%Q)
           "^GSPC" "aapl" 19000 30
           (mkFrame ["AAPL"; "^GSPC"] (flat_prices 18960 60)) 0).
  - reflexivity.
  - reflexivity.
  - reflexivity.
  - vm_compute. lia.
  - cbn [columns dropna pct_change]. rewrite !elem_of_cons.
    right. left. reflexivity.
  - cbn [columns dropna pct_change]. rewrite !elem_of_cons.
    left. reflexivity.
  - vm_compute. discriminate.
  - vm_compute. discriminate.
  - vm_compute. reflexivity.
  - vm_compute. reflexivity.
Defined.

(** ** The metadata enricher (asset_metadata.py) *)

Section Enricher.

Variable ticker_info : string → outcome (gmap string pyval).

Local Notation get := (get_asset_info ticker_info).
Local Notation apply_get := (apply_get_asset_info ticker_info).

Lemma get_asset_info_not_str (cache : gmap string metadata) (tk : pyval) :
  (∀ s, tk ≠ PyStr s) → get cache tk = (_default_metadata, cache, []).
Proof. intros H. destruct tk as [s| | |]; [by destruct (H s)|done..]. Qed.

(** What a call does, by the sanitised ticker. *)
Lemma get_asset_info_str (cache : gmap string metadata) (raw : string) :
  get cache (PyStr raw) =
  let s := sanitize raw in
  if crypto_or_bond s then (_default_metadata, cache, [])
  else match cache !! s with
       | Some cached => (cached, cache, [])
       | None =>
           if invalid_symbol s then (_default_metadata, cache, [])
           else match ticker_info s with
                | Ok info =>
                    let m := mkMetadata
                               (info_get info "shortName" (PyStr "Unknown"))
                               (info_get info "sector" (PyStr "Unknown"))
                               (info_get info "industry" (PyStr "Unknown"))
                               (info_get info "marketCap" (PyInt 0)) in
                    (m, <[s := m]> cache, [s])
                | Raised _ => (_default_metadata, cache, [s])
                end
       end.
Proof. reflexivity. Qed.

(** One call either leaves the cache alone and records no successful
    lookup, or looks up one new symbol with success and stores it. *)
Lemma get_asset_info_step (cache : gmap string metadata) (tk : pyval) :
  ∃ m cache' t, get cache tk = (m, cache', t) ∧
    ((cache' = cache ∧ successes ticker_info t = []) ∨
     (∃ s, t = [s] ∧ successes ticker_info t = [s] ∧ cache !! s = None ∧
           rejected s = false ∧ cache' = <[s := m]> cache)).
Proof.
  destruct tk as [raw| | |];
    try (eexists _, _, _; split; [reflexivity|]; by left).
  rewrite get_asset_info_str. cbv zeta.
  destruct (crypto_or_bond (sanitize raw)) eqn:Hcb;
    [eexists _, _, _; split; [reflexivity|]; by left|].
  destruct (cache !! sanitize raw) as [cached|] eqn:Hc;
    [eexists _, _, _; split; [reflexivity|]; by left|].
  destruct (invalid_symbol (sanitize raw)) eqn:Hinv;
    [eexists _, _, _; split; [reflexivity|]; by left|].
  assert (Hrej : rejected (sanitize raw) = false)
    by (unfold rejected; by rewrite Hcb, Hinv).
  destruct (ticker_info (sanitize raw)) as [info|e] eqn:Hinfo;
    eexists _, _, _; (split; [reflexivity|]).
  - right. exists (sanitize raw). repeat split; try done.
    unfold successes. rewrite filter_cons_True; [done|].
    unfold lookup_succeeds. by rewrite Hinfo.
  - left. split; [done|]. unfold successes.
    rewrite filter_cons_False; [done|].
    unfold lookup_succeeds. by rewrite Hinfo.
Qed.

Lemma cache_valid_step (cache : gmap string metadata) (tk : pyval) :
  cache_valid cache → cache_valid (get cache tk).1.2.
Proof.
  intros Hvalid.
  destruct (get_asset_info_step cache tk)
    as (m & cache' & t & -> & [[-> _]|(s & _ & _ & _ & Hrej & ->)]);
    simpl; [done|].
  intros k m' Hk. apply lookup_insert_Some in Hk as [[<- _]|[_ Hk]]; [done|].
  by apply (Hvalid k m').
Qed.

Lemma cache_valid_apply (cache : gmap string metadata) (column : list pyval) :
  cache_valid cache → cache_valid (apply_get cache column).1.2.
Proof.
  revert cache. induction column as [|v column IH]; intros cache Hvalid;
    [done|]. simpl.
  pose proof (cache_valid_step cache v Hvalid) as Hstep.
  destruct (get cache v) as [[m cache1] t1]. simpl in Hstep.
  specialize (IH cache1 Hstep).
  destruct (apply_get cache1 column) as [[ms cache2] t2]. done.
Qed.

Lemma get_asset_info_rejected (cache : gmap string metadata) (tk : pyval) :
  cache_valid cache → rejected_ticker tk = true →
  get cache tk = (_default_metadata, cache, []).
Proof.
  intros Hvalid Hrej. destruct tk as [raw| | |]; try reflexivity.
  simpl in Hrej. rewrite get_asset_info_str. cbv zeta.
  destruct (crypto_or_bond (sanitize raw)) eqn:Hcb; [reflexivity|].
  destruct (cache !! sanitize raw) as [cached|] eqn:Hc.
  - apply Hvalid in Hc. congruence.
  - unfold rejected in Hrej. rewrite Hcb in Hrej. simpl in Hrej.
    by rewrite Hrej.
Qed.

End Enricher.

(** X8.  An enricher that starts with an empty cache and is used through
    [get_asset_info] never stores a refused symbol, so after any sequence
    of calls a ticker that is not a string, or whose sanitised form starts
    with "$" or a digit, is empty, is "---" or contains "UNKNOWN", gets the
    default record, without a lookup and without touching the cache. *)
Theorem refused_ticker_gets_default_record
    (ticker_info : string → outcome (gmap string pyval))
    (earlier : list pyval) (tk : pyval) :
  let cache := (apply_get_asset_info ticker_info ∅ earlier).1.2 in
  rejected_ticker tk = true →
  get_asset_info ticker_info cache tk = (_default_metadata, cache, []).
Proof.
  intros cache Hrej. apply get_asset_info_rejected; [|exact Hrej].
  apply cache_valid_apply. intros k m Hk. by rewrite lookup_empty in Hk.
Qed.

Lemma refused_ticker_gets_default_record_witness :
  let cache :=
    (apply_get_asset_info demo_info ∅ [PyStr "aapl"; PyStr "brk/b"]).1.2 in
  cache !! "BRK-B" ≠ None ∧
  get_asset_info demo_info cache (PyStr " $btc") = (_default_metadata, cache, []) ∧
  get_asset_info demo_info cache (PyStr "912828zt0") = (_default_metadata, cache, []) ∧
  get_asset_info demo_info cache (PyStr "Unknown Fund") = (_default_metadata, cache, []) ∧
  get_asset_info demo_info cache (PyFloat NaN) = (_default_metadata, cache, []).
Proof.
  intros cache. split; [by vm_compute|].
  pose proof (refused_ticker_gets_default_record demo_info
                [PyStr "aapl"; PyStr "brk/b"]) as Hrefused.
  split; [exact (Hrefused (PyStr " $btc") eq_refl)|].
  split; [exact (Hrefused (PyStr "912828zt0") eq_refl)|].
  split; [exact (Hrefused (PyStr "Unknown Fund") eq_refl)|].
  exact (Hrefused (PyFloat NaN) eq_refl).
Defined.

(** X9.  After a successful lookup the record is stored under the
    sanitised symbol: any later call with a ticker that sanitises to the
    same symbol (another spelling, other blanks) gets the very same record
    from the cache, with no lookup and no change of the cache. *)
Theorem cached_record_is_reused
    (ticker_info : string → outcome (gmap string pyval))
    (cache : gmap string metadata) (raw raw' : string)
    (info : gmap string pyval) :
  rejected (sanitize raw) = false →
  cache !! sanitize raw = None →
  ticker_info (sanitize raw) = Ok info →
  sanitize raw' = sanitize raw →
  ∃ m,
    get_asset_info ticker_info cache (PyStr raw) =
      (m, <[sanitize raw := m]> cache, [sanitize raw]) ∧
    get_asset_info ticker_info (<[sanitize raw := m]> cache) (PyStr raw') =
      (m, <[sanitize raw := m]> cache, []).
Proof.
  intros Hrej Hc Hinfo Hsame.
  apply orb_false_iff in Hrej as [Hcb Hinv].
  eexists. split.
  - rewrite get_asset_info_str. cbv zeta. by rewrite Hcb, Hc, Hinv, Hinfo.
  - rewrite get_asset_info_str. cbv zeta.
    by rewrite Hsame, Hcb, lookup_insert_eq.
Qed.

Lemma cached_record_is_reused_witness :
  ∃ m,
    get_asset_info demo_info ∅ (PyStr "brk/b") =
      (m, <["BRK-B" := m]> ∅, ["BRK-B"]) ∧
    get_asset_info demo_info (<["BRK-B" := m]> ∅) (PyStr " BRK.B ") =
      (m, <["BRK-B" := m]> ∅, []).
Proof.
  exact (cached_record_is_reused demo_info ∅ "brk/b" " BRK.B " _
           eq_refl eq_refl eq_refl eq_refl).
Defined.

(** X10.  A failed lookup is not remembered: the call answers with the
    default record and leaves the cache as it was, so a column that holds
    the same such ticker n times causes n lookups. *)
Theorem failed_lookup_is_repeated
    (ticker_info : string → outcome (gmap string pyval))
    (cache : gmap string metadata) (raw e : string) (n : nat) :
  rejected (sanitize raw) = false →
  cache !! sanitize raw = None →
  ticker_info (sanitize raw) = Raised e →
  apply_get_asset_info ticker_info cache (replicate n (PyStr raw)) =
    (replicate n _default_metadata, cache, replicate n (sanitize raw)).
Proof.
  intros Hrej Hc Hinfo. apply orb_false_iff in Hrej as [Hcb Hinv].
  induction n as [|n IH]; [reflexivity|].
  cbn [replicate apply_get_asset_info].
  rewrite get_asset_info_str. cbv zeta. rewrite Hcb, Hc, Hinv, Hinfo, IH.
  reflexivity.
Qed.

Lemma failed_lookup_is_repeated_witness :
  apply_get_asset_info demo_info ∅ (replicate 3 (PyStr "zzzz")) =
    (replicate 3 _default_metadata, ∅, ["ZZZZ"; "ZZZZ"; "ZZZZ"]).
Proof.
  exact (failed_lookup_is_repeated demo_info ∅ "zzzz" "HTTPError 404" 3
           eq_refl eq_refl eq_refl).
Defined.

Section EnricherGrowth.

Variable ticker_info : string → outcome (gmap string pyval).

Lemma successes_app (t1 t2 : list string) :
  successes ticker_info (t1 ++ t2) =
  successes ticker_info t1 ++ successes ticker_info t2.
Proof. apply filter_app. Qed.

Lemma apply_get_asset_info_growth (cache : gmap string metadata)
    (column : list pyval) :
  ∃ ms cache' t,
    apply_get_asset_info ticker_info cache column = (ms, cache', t) ∧
    length ms = length column ∧
    cache ⊆ cache' ∧
    NoDup (successes ticker_info t) ∧
    (∀ s, s ∈ successes ticker_info t → cache !! s = None) ∧
    size cache' = (size cache + length (successes ticker_info t))%nat.
Proof.
  revert cache. induction column as [|v column IH]; intros cache.
  - exists [], cache, []. split; [reflexivity|]. split; [reflexivity|].
    split; [reflexivity|]. split; [constructor|].
    split; [intros s Hs; by apply elem_of_nil in Hs | simpl; lia].
  - cbn [apply_get_asset_info].
    destruct (get_asset_info_step ticker_info cache v)
      as (m & cache1 & t1 & -> & Hstep).
    destruct (IH cache1) as (ms & cache2 & t2 & -> & Hlen & Hsub & Hnd & Hnew & Hsize).
    exists (m :: ms), cache2, (t1 ++ t2). split; [reflexivity|].
    split; [simpl; by rewrite Hlen|].
    rewrite successes_app.
    destruct Hstep as [[-> ->]|(s & -> & -> & Hs & _ & ->)].
    + done.
    + assert (Hs2 : s ∉ successes ticker_info t2).
      { intros Hin. apply Hnew in Hin. by rewrite lookup_insert_eq in Hin. }
      split; [|split; [|split]].
      * etrans; [|exact Hsub]. by apply insert_subseteq.
      * simpl. by constructor.
      * intros s' Hs'. simpl in Hs'.
        apply elem_of_cons in Hs' as [->|Hs']; [done|].
        specialize (Hnew s' Hs').
        apply lookup_insert_None in Hnew as [Hnew _]. done.
      * rewrite Hsize, map_size_insert_None by done. simpl. lia.
Qed.

End EnricherGrowth.

(** X11.  Over a whole column the cache only grows and no entry is ever
    replaced; the symbols looked up with success are pairwise distinct, none
    of them was in the cache before, and the cache gains exactly one entry
    for each: a symbol is looked up with success at most once. *)
Theorem each_symbol_is_looked_up_once
    (ticker_info : string → outcome (gmap string pyval))
    (cache : gmap string metadata) (column : list pyval) :
  ∃ ms cache' t,
    apply_get_asset_info ticker_info cache column = (ms, cache', t) ∧
    length ms = length column ∧
    cache ⊆ cache' ∧
    NoDup (successes ticker_info t) ∧
    Forall (λ s, cache !! s = None) (successes ticker_info t) ∧
    size cache' = (size cache + length (successes ticker_info t))%nat.
Proof.
  destruct (apply_get_asset_info_growth ticker_info cache column)
    as (ms & cache' & t & Hrun & Hlen & Hsub & Hnd & Hnew & Hsize).
  exists ms, cache', t. split; [done|]. split; [done|]. split; [done|].
  split; [done|]. split; [by apply Forall_forall | done].
Qed.

(** ** Enriching a table (asset_metadata.py lines 88-114) *)

Lemma lookup_column_app (label : string) (l1 l2 : list (string * list pyval)) :
  lookup_column label (l1 ++ l2) =
  match lookup_column label l1 with
  | Some cells => Some cells
  | None => lookup_column label l2
  end.
Proof.
  induction l1 as [|[l cells] l1 IH]; simpl; [reflexivity|].
  by destruct (String.eqb l label).
Qed.

Lemma lookup_column_filter (label : string) (cols : list (string * list pyval)) :
  lookup_column label (filter (λ c, c.1 ∉ meta_labels) cols) =
  if decide (label ∈ meta_labels) then None else lookup_column label cols.
Proof.
  induction cols as [|[l cells] cols IH]; simpl; [by destruct (decide _)|].
  destruct (String.eqb l label) eqn:Hl.
  - apply String.eqb_eq in Hl as ->.
    destruct (decide (label ∈ meta_labels)) as [HP|HP].
    + rewrite filter_cons_False by (simpl; tauto). exact IH.
    + rewrite filter_cons_True by done. simpl. by rewrite String.eqb_refl.
  - destruct (decide (l ∈ meta_labels)) as [HP|HP].
    + rewrite filter_cons_False by (simpl; tauto). exact IH.
    + rewrite filter_cons_True by done. simpl. by rewrite Hl.
Qed.

Lemma kept_labels (cols : list (string * list pyval)) :
  map fst (filter (λ c, c.1 ∉ meta_labels) cols) =
  filter (λ l, l ∉ meta_labels) (map fst cols).
Proof.
  induction cols as [|[l c] cols IH]; [reflexivity|]. simpl.
  destruct (decide (l ∈ meta_labels)) as [HP|HP].
  - rewrite !filter_cons_False by (simpl; tauto). exact IH.
  - rewrite !filter_cons_True by done. simpl. by rewrite IH.
Qed.

Lemma meta_labels_NoDup (metas : list metadata) :
  NoDup (map fst (meta_columns metas)).
Proof.
  simpl. repeat constructor; rewrite ?elem_of_cons, ?elem_of_nil;
    intros H; repeat destruct H as [H|H]; done.
Qed.

Lemma lookup_column_elem (label : string) (cols : list (string * list pyval))
    (cells : list pyval) :
  lookup_column label cols = Some cells → (label, cells) ∈ cols.
Proof.
  induction cols as [|[l c] cols IH]; simpl; [done|].
  destruct (String.eqb l label) eqn:Hl.
  - apply String.eqb_eq in Hl as ->. intros [= ->]. by left.
  - intros H. right. by apply IH.
Qed.

Lemma apply_get_asset_info_length
    (ticker_info : string → outcome (gmap string pyval))
    (cache : gmap string metadata) (column : list pyval) :
  length (apply_get_asset_info ticker_info cache column).1.1 = length column.
Proof.
  destruct (apply_get_asset_info_growth ticker_info cache column)
    as (ms & cache' & t & -> & Hlen & _). exact Hlen.
Qed.

(** X12.  On a non-empty table with distinct labels, one cell per row in
    every column and a ticker column, [enrich_dataframe] returns a table of
    the same kind with the same number of rows: the columns [name],
    [sector], [industry] and [market_cap] hold, row by row, what
    [get_asset_info] answered for the ticker of that row (older columns
    with these labels are replaced, not doubled), and every other column is
    kept unchanged. *)
Theorem enrich_dataframe_adds_four_columns
    (ticker_info : string → outcome (gmap string pyval))
    (cache : gmap string metadata) (df : table) (ticker_col : string)
    (column : list pyval) :
  table_wf df →
  table_empty df = false →
  table_get df ticker_col = Some column →
  ∃ metas cache' t out,
    apply_get_asset_info ticker_info cache column = (metas, cache', t) ∧
    enrich_dataframe ticker_info cache df ticker_col = (Ok out, cache', t) ∧
    index_len out = index_len df ∧
    length metas = index_len df ∧
    table_wf out ∧
    table_get out "name" = Some (map name metas) ∧
    table_get out "sector" = Some (map sector metas) ∧
    table_get out "industry" = Some (map industry metas) ∧
    table_get out "market_cap" = Some (map market_cap metas) ∧
    Forall (λ c, c.1 ∈ meta_labels ∨ table_get out c.1 = Some c.2)
           (table_columns df).
Proof.
  intros [Hnd Hrect] Hne Hcol.
  pose proof (apply_get_asset_info_length ticker_info cache column) as Hlen.
  unfold enrich_dataframe. rewrite Hne, Hcol.
  destruct (apply_get_asset_info ticker_info cache column)
    as [[metas cache'] t]. simpl in Hlen.
  assert (Hcells : length column = index_len df).
  { apply lookup_column_elem in Hcol.
    by apply (proj1 (Forall_forall _ _) Hrect) in Hcol. }
  assert (Hmeta : ∀ label,
    label ∈ meta_labels →
    table_get (mkTable (index_len df)
                 (filter (λ c, c.1 ∉ meta_labels) (table_columns df)
                  ++ meta_columns metas)) label
    = lookup_column label (meta_columns metas)).
  { intros label Hin. unfold table_get. cbn [table_columns].
    rewrite lookup_column_app, lookup_column_filter.
    by rewrite decide_True by done. }
  eexists metas, cache', t, _. split; [reflexivity|]. split; [reflexivity|].
  split; [reflexivity|]. split; [by rewrite Hlen|].
  split; [|split; [|split; [|split; [|split]]]].
  - split; cbn [table_columns index_len].
    + rewrite map_app, kept_labels. apply NoDup_app. split; [|split].
      * by apply NoDup_filter.
      * intros l Hl Hl'. apply list_elem_of_filter in Hl as [Hl _].
        apply Hl. exact Hl'.
      * apply meta_labels_NoDup.
    + apply Forall_app. split.
      * apply Forall_forall. intros c Hc.
        apply list_elem_of_filter in Hc as [_ Hc].
        by apply (proj1 (Forall_forall _ _) Hrect).
      * repeat constructor; simpl; rewrite length_map; congruence.
  - rewrite Hmeta; [reflexivity|]. unfold meta_labels.
    rewrite !elem_of_cons. auto.
  - rewrite Hmeta; [reflexivity|]. unfold meta_labels.
    rewrite !elem_of_cons. auto.
  - rewrite Hmeta; [reflexivity|]. unfold meta_labels.
    rewrite !elem_of_cons. auto.
  - rewrite Hmeta; [reflexivity|]. unfold meta_labels.
    rewrite !elem_of_cons. auto.
  - apply Forall_forall. intros [l c] Hc. simpl.
    destruct (decide (l ∈ meta_labels)) as [Hin|Hout]; [by left|right].
    unfold table_get. cbn [table_columns].
    rewrite lookup_column_app, lookup_column_filter.
    rewrite decide_False by done.
    assert (Hl : lookup_column l (table_columns df) = Some c).
    { clear -Hnd Hc. induction (table_columns df) as [|[l' c'] cols IH];
        [by apply elem_of_nil in Hc|].
      simpl in Hnd. apply NoDup_cons in Hnd as [Hnot Hnd]. simpl.
      apply elem_of_cons in Hc as [[= <- <-]|Hc].
      - by rewrite String.eqb_refl.
      - destruct (String.eqb_spec l' l) as [->|_]; [|by apply IH].
        exfalso. apply Hnot. apply list_elem_of_fmap. by exists (l, c). }
    by rewrite Hl.
Qed.

Lemma enrich_dataframe_adds_four_columns_witness :
  table_wf demo_table ∧
  ∃ out cache' metas,
    enrich_dataframe demo_info ∅ demo_table "ticker" =
      (Ok out, cache', ["AAPL"; "BRK-B"; "ZZZZ"]) ∧
    table_wf out ∧
    table_get out "sector" = Some (map sector metas) ∧
    map sector metas =
      [PyStr "Technology"; PyStr "Financial Services";
       PyStr "Technology"; PyStr "Unknown"] ∧
    table_get out "amount" = table_get demo_table "amount".
Proof.
  assert (Hwf : table_wf demo_table).
  { unfold table_wf. apply (bool_decide_unpack _). vm_compute. exact I. }
  split; [exact Hwf|].
  destruct (enrich_dataframe_adds_four_columns demo_info ∅ demo_table "ticker"
              _ Hwf eq_refl eq_refl)
    as (metas & cache' & t & out & Happly & Hrun & _ & _ & Hout & _ & Hsec
        & _ & _ & Hkept).
  pose proof (f_equal (λ r, (map sector r.1.1, r.2)) Happly) as Hc.
  vm_compute in Hc. injection Hc as Hs Ht. subst t.
  exists out, cache', metas. split; [exact Hrun|]. split; [exact Hout|].
  split; [exact Hsec|]. split; [symmetry; exact Hs|].
  apply Forall_lookup_1
    with (i := 2%nat)
         (x := ("amount", [PyInt 1000; PyInt 15000; PyInt 50000; PyInt 1000]))
    in Hkept; [|reflexivity].
  destruct Hkept as [Hbad|Hkept]; [|exact Hkept].
  exfalso. unfold meta_labels in Hbad. simpl in Hbad.
  repeat (apply elem_of_cons in Hbad as [Hbad|Hbad]; [discriminate Hbad|]).
  by apply elem_of_nil in Hbad.
Defined.

(** ** The ticker filter of the portfolio manager (portfolio.py lines 10-30) *)

Lemma length_chars (s : string) : String.length s = length (chars s).
Proof. induction s as [|c s IH]; simpl; by rewrite ?IH. Qed.

Lemma chars_remove_char (c : ascii) (s : string) :
  chars (remove_char c s) = filter (λ x, x ≠ c) (chars s).
Proof.
  induction s as [|c' s IH]; [reflexivity|]. simpl.
  destruct (Ascii.eqb_spec c' c) as [->|Hne].
  - by rewrite filter_cons_False by (intros H; by apply H).
  - rewrite filter_cons_True by done. simpl. by rewrite IH.
Qed.

Lemma isalnum_spec (s : string) :
  isalnum s = true ↔ chars s ≠ [] ∧ Forall (λ c, is_alnum c = true) (chars s).
Proof.
  unfold isalnum. rewrite <- forallb_true_Forall. destruct s; simpl.
  - split; [done | by intros [? _]].
  - split; [by intros H | by intros [_ H]].
Qed.

Lemma string_map_fixed (f : ascii → ascii) (s : string) :
  Forall (λ c, f c = c) (chars s) → string_map f s = s.
Proof.
  induction s as [|c s IH]; [reflexivity|]. simpl.
  intros H. apply Forall_cons in H as [-> H]. by rewrite IH.
Qed.

Lemma strip_no_blank (s : string) :
  Forall (λ c, isspace c = false) (chars s) → strip s = s.
Proof.
  intros H. unfold strip.
  assert (Hl : lstrip s = s).
  { destruct s as [|c s]; [reflexivity|]. simpl.
    apply Forall_cons in H as [-> _]. reflexivity. }
  rewrite Hl. induction s as [|c s IH]; [reflexivity|]. simpl.
  apply Forall_cons in H as [Hc H].
  rewrite IH; [|exact H|by destruct s as [|c' s]; [|simpl;
    apply Forall_cons in H as [-> _]]].
  rewrite Hc. by destruct s.
Qed.

(** The per-character facts, checked on all 256 characters. *)
Lemma core_char_is_symbol_char (c : ascii) :
  implb (Ascii.eqb (upper_char c) "." || Ascii.eqb (upper_char c) "/"
         || Ascii.eqb (upper_char c) "-" || is_alnum (upper_char c))
        (symbol_char (sanitize_char c)) = true.
Proof. each_ascii c. Qed.

Lemma alnum_char_is_not_hyphen (c : ascii) :
  implb (is_alnum (upper_char c))
        ((is_digit (sanitize_char c) || is_upper (sanitize_char c))
         && negb (Ascii.eqb (upper_char c) ".")
         && negb (Ascii.eqb (upper_char c) "/")
         && negb (Ascii.eqb (upper_char c) "-")) = true.
Proof. each_ascii c. Qed.

Lemma symbol_char_facts (c : ascii) :
  implb (symbol_char c)
        (negb (isspace c) && Ascii.eqb (upper_char c) c
         && negb (Ascii.eqb c "/") && negb (Ascii.eqb c ".")
         && (Ascii.eqb c "-" || is_alnum c)
         && negb (is_lower c)) = true.
Proof. each_ascii c. Qed.

Lemma upper_char_not_lower (c : ascii) : is_lower (upper_char c) = false.
Proof. each_ascii c. Qed.

Lemma chars_core (s : string) (c : ascii) :
  c ∈ chars (remove_char "-" (remove_char "/" (remove_char "." s))) ↔
  c ∈ chars s ∧ c ≠ "."%char ∧ c ≠ "/"%char ∧ c ≠ "-"%char.
Proof.
  rewrite !chars_remove_char, !list_elem_of_filter. tauto.
Qed.

Lemma clean_ticker_Some (raw t : string) :
  clean_ticker (PyStr raw) = Some t →
  t = sanitize raw ∧ portfolio_symbol t = true.
Proof.
  unfold clean_ticker.
  destruct (_ || _) eqn:Hguard; [discriminate|].
  destruct (isalnum _) eqn:Hcore; [|discriminate]. simpl.
  intros [= <-]. split; [reflexivity|].
  apply orb_false_iff in Hguard as [Hlen _]. apply Nat.leb_gt in Hlen.
  apply isalnum_spec in Hcore as [Hne Hall].
  fold (sanitize raw). rewrite sanitize_string_map.
  rewrite upper_string_map in Hlen, Hne, Hall.
  set (u := strip raw) in *.
  assert (Hlen' : String.length (string_map sanitize_char u)
                  = String.length (string_map upper_char u))
    by (by rewrite !length_chars, !chars_string_map, !length_map).
  unfold portfolio_symbol. rewrite Hlen'.
  rewrite (proj2 (Nat.leb_le _ _)) by lia. simpl.
  rewrite chars_string_map. apply andb_true_iff. split.
  - apply forallb_true_Forall, Forall_fmap, Forall_forall. intros c Hc. simpl.
    pose proof (core_char_is_symbol_char c) as Himp.
    destruct (symbol_char (sanitize_char c)); [reflexivity|].
    exfalso. rewrite implb_false_r in Himp. apply negb_true_iff in Himp.
    repeat (apply orb_false_iff in Himp as [Himp ?]).
    assert (Hin : upper_char c ∈ chars
                    (remove_char "-" (remove_char "/" (remove_char "."
                       (string_map upper_char u))))).
    { apply chars_core. rewrite chars_string_map.
      split; [by apply list_elem_of_fmap_2|].
      repeat split; intros Heq; rewrite Heq in *; discriminate. }
    apply (proj1 (Forall_forall _ _) Hall) in Hin. congruence.
  - apply existsb_exists.
    destruct (chars (remove_char "-" (remove_char "/" (remove_char "."
                (string_map upper_char u))))) as [|c0 rest] eqn:Hchars;
      [done|].
    assert (Hin : c0 ∈ chars (remove_char "-" (remove_char "/"
                         (remove_char "." (string_map upper_char u)))))
      by (rewrite Hchars; by left).
    apply Forall_cons in Hall as [Halnum _].
    apply chars_core in Hin as [Hin _].
    rewrite chars_string_map in Hin.
    apply list_elem_of_fmap in Hin as (c & -> & Hc).
    exists (sanitize_char c). split.
    + apply list_elem_of_In. by apply list_elem_of_fmap_2.
    + pose proof (alnum_char_is_not_hyphen c) as Himp.
      rewrite Halnum in Himp. simpl in Himp.
      repeat (apply andb_true_iff in Himp as [Himp _]). exact Himp.
Qed.

Lemma clean_ticker_fixed (t : string) :
  portfolio_symbol t = true → clean_ticker (PyStr t) = Some t.
Proof.
  unfold portfolio_symbol. rewrite !andb_true_iff, Nat.leb_le.
  intros [[Hlen Hall] Hex].
  apply forallb_true_Forall in Hall.
  assert (Hfacts : ∀ c, c ∈ chars t →
            isspace c = false ∧ upper_char c = c ∧ c ≠ "/"%char ∧
            c ≠ "."%char ∧ (c = "-"%char ∨ is_alnum c = true) ∧
            is_lower c = false).
  { intros c Hc. apply (proj1 (Forall_forall _ _) Hall) in Hc.
    pose proof (symbol_char_facts c) as Himp. rewrite Hc in Himp.
    simpl in Himp. repeat (apply andb_true_iff in Himp as [Himp ?]).
    repeat split.
    - by apply negb_true_iff.
    - by apply Ascii.eqb_eq.
    - intros ->. discriminate.
    - intros ->. discriminate.
    - match goal with H : _ || _ = true |- _ =>
        apply orb_true_iff in H as [H|H] end;
        [left; by apply Ascii.eqb_eq | by right].
    - by apply negb_true_iff. }
  assert (Hstrip : strip t = t).
  { apply strip_no_blank, Forall_forall. intros c Hc. by apply Hfacts. }
  assert (Hupper : upper t = t).
  { rewrite upper_string_map. apply string_map_fixed, Forall_forall.
    intros c Hc. by apply Hfacts. }
  assert (Hrepl : replace "." "-" (replace "/" "-" t) = t).
  { rewrite !replace_string_map, string_map_compose.
    apply string_map_fixed, Forall_forall. intros c Hc.
    destruct (Hfacts c Hc) as (_ & _ & Hs & Hd & _).
    destruct (Ascii.eqb_spec c "/") as [->|_]; [done|].
    by destruct (Ascii.eqb_spec c ".") as [->|_]. }
  unfold clean_ticker. rewrite Hstrip, Hupper, Hrepl.
  rewrite (proj2 (Nat.leb_gt _ _)) by lia. simpl.
  apply existsb_exists in Hex as (c0 & Hc0 & Hc0').
  apply list_elem_of_In in Hc0.
  assert (Hc0alnum : is_alnum c0 = true ∧ c0 ≠ "-"%char).
  { unfold is_alnum. split.
    - apply orb_true_iff. left. exact Hc0'.
    - intros ->. discriminate. }
  destruct (bool_decide _) eqn:Hlist.
  { apply bool_decide_eq_true in Hlist.
    rewrite !elem_of_cons, elem_of_nil in Hlist.
    destruct Hlist as [->|[->|[->|[]]]].
    - simpl in Hc0. rewrite !elem_of_cons, elem_of_nil in Hc0.
      destruct Hc0alnum as [_ Hne]. destruct Hc0 as [?|[?|[]]]; done.
    - simpl in Hc0. rewrite !elem_of_cons, elem_of_nil in Hc0.
      destruct Hc0alnum as [_ Hne]. destruct Hc0 as [?|[?|[?|[]]]]; done.
    - assert (Ha : is_lower "a" = false)
        by (apply Hfacts; simpl; rewrite !elem_of_cons; auto).
      discriminate Ha. }
  assert (Hcore : isalnum (remove_char "-" (remove_char "/"
                             (remove_char "." t))) = true).
  { apply isalnum_spec. split.
    - intros Hnil.
      assert (Hin : c0 ∈ chars (remove_char "-" (remove_char "/"
                                  (remove_char "." t)))).
      { apply chars_core. destruct (Hfacts c0 Hc0) as (_ & _ & ? & ? & _).
        destruct Hc0alnum. done. }
      rewrite Hnil in Hin. by apply elem_of_nil in Hin.
    - apply Forall_forall. intros c Hc. apply chars_core in Hc as (Hc & _ & _ & Hh).
      destruct (Hfacts c Hc) as (_ & _ & _ & _ & [?|?] & _); done. }
  by rewrite Hcore.
Qed.

Lemma portfolio_symbols_clean_list (tickers : list pyval) :
  Forall (λ t, portfolio_symbol t = true)
         (elements (PortfolioManager_tickers tickers)).
Proof.
  apply Forall_forall. intros t Ht.
  apply elem_of_elements in Ht. unfold PortfolioManager_tickers in Ht.
  apply elem_of_list_to_set in Ht. unfold cleaned_tickers in Ht.
  apply list_elem_of_omap in Ht as (v & Hv & Hclean).
  destruct v as [raw| | |]; try discriminate.
  by apply clean_ticker_Some in Hclean as [_ Hsym].
Qed.

(** X14.  When every string of the input is ASCII text, every symbol the
    portfolio manager keeps is the sanitised form (the one [calculate_car]
    and the enricher use) of a string of the input, has at least two
    characters, consists of capital letters, digits and hyphens only, and
    holds at least one letter or digit. *)
Theorem portfolio_symbols_are_clean (tickers : list pyval) :
  Forall (λ v, ascii_value v = true) tickers →
  Forall (λ t, portfolio_symbol t = true ∧
               ∃ raw, PyStr raw ∈ tickers ∧ is_ascii raw = true ∧
                      t = sanitize raw)
         (elements (PortfolioManager_tickers tickers)).
Proof.
  intros Hascii. apply Forall_forall. intros t Ht.
  apply elem_of_elements in Ht. unfold PortfolioManager_tickers in Ht.
  apply elem_of_list_to_set in Ht. unfold cleaned_tickers in Ht.
  apply list_elem_of_omap in Ht as (v & Hv & Hclean).
  destruct v as [raw| | |]; try discriminate.
  apply clean_ticker_Some in Hclean as [-> Hsym].
  split; [exact Hsym|]. exists raw. split; [exact Hv|]. split; [|reflexivity].
  exact (proj1 (Forall_forall _ _) Hascii (PyStr raw) Hv).
Qed.

Lemma portfolio_symbols_are_clean_witness :
  Forall (λ t, portfolio_symbol t = true ∧
               ∃ raw, PyStr raw ∈ [PyStr "brk/b"; PyStr " aapl "; PyStr "F";
                                   PyNone; PyStr "a b"; PyStr "BRK.B"] ∧
                      is_ascii raw = true ∧ t = sanitize raw)
         (elements (PortfolioManager_tickers
                      [PyStr "brk/b"; PyStr " aapl "; PyStr "F"; PyNone;
                       PyStr "a b"; PyStr "BRK.B"])).
Proof.
  apply portfolio_symbols_are_clean.
  repeat (apply Forall_cons; split; [reflexivity|]). apply Forall_nil_2.
Defined.

(** X15.  Filtering is idempotent: a portfolio manager built from the
    symbols of another one keeps exactly those symbols. *)
Theorem portfolio_filter_is_idempotent (tickers : list pyval) :
  PortfolioManager_tickers
    (PyStr <$> elements (PortfolioManager_tickers tickers))
  = PortfolioManager_tickers tickers.
Proof.
  pose proof (portfolio_symbols_clean_list tickers) as Hclean.
  unfold PortfolioManager_tickers at 1. unfold cleaned_tickers.
  set (S := PortfolioManager_tickers tickers) in *.
  assert (Hfix : omap clean_ticker (PyStr <$> elements S) = elements S).
  { induction (elements S) as [|t l IH]; [reflexivity|].
    apply Forall_cons in Hclean as [Ht Hl].
    rewrite fmap_cons. cbn [omap list_omap].
    rewrite (clean_ticker_fixed t Ht). f_equal. by apply IH. }
  rewrite Hfix. apply list_to_set_elements_L.
Qed.

(** X16.  The entry "NaN" of the filter list of line 18 can never match,
    because the ticker has been uppercased by then: a ticker that reads
    "nan" in any capitalisation is kept, as the symbol "NAN". *)
Theorem nan_entry_never_matches (raw : string) :
  upper (strip raw) ≠ "NaN" ∧
  (upper (strip raw) = "NAN" → clean_ticker (PyStr raw) = Some "NAN").
Proof.
  split.
  - intros H. apply (f_equal chars) in H.
    rewrite upper_string_map, chars_string_map in H.
    destruct (chars (strip raw)) as [|c1 [|c2 l]]; try discriminate.
    simpl in H. injection H as _ H _.
    pose proof (upper_char_not_lower c2) as Hc. rewrite H in Hc. discriminate.
  - intros H. unfold clean_ticker. rewrite H. reflexivity.
Qed.

Lemma nan_entry_never_matches_witness :
  clean_ticker (PyStr " NaN ") = Some "NAN" ∧
  PortfolioManager_tickers [PyStr "NaN"; PyStr "nan"; PyStr "--"; PyStr "F"]
    = {["NAN"]}.
Proof.
  split.
  - exact (proj2 (nan_entry_never_matches " NaN ") eq_refl).
  - apply set_eq. intros x. unfold PortfolioManager_tickers.
    rewrite elem_of_list_to_set. vm_compute cleaned_tickers.
    rewrite !elem_of_cons, elem_of_nil, elem_of_singleton. tauto.
Defined.

(** ** Optimising (portfolio.py lines 32-75) *)

Section Optimize.

Variable performance : Type.
Variable download_2y : list string → outcome price_table.
Variable max_sharpe : price_table → outcome performance.

Local Notation optimize := (optimize_portfolio performance download_2y max_sharpe).

Lemma optimize_portfolio_cases (tickers : gset string) :
  let symbols := elements tickers in
  let started := [PfInfo (length symbols); PfDownload symbols] in
  (tickers = ∅ ∧
   optimize tickers =
     (None, [PfWarning "No valid tickers provided for optimization."])) ∨
  (tickers ≠ ∅ ∧
   ((∃ e, download_2y symbols = Raised e ∧
          optimize tickers = (None, started ++ [PfError e])) ∨
    (∃ raw_df df,
       download_2y symbols = Ok raw_df ∧
       df = dropna_thresh (thresh_of (length (pt_dates raw_df)))
              (dropna_all raw_df) ∧
       (((pt_dates df = [] ∨ (length (pt_series df) < 2)%nat) ∧
         optimize tickers =
           (None, started ++ [PfWarning "Insufficient data (needs at least 2 stocks with 2y history)."])) ∨
        (pt_dates df ≠ [] ∧ (2 ≤ length (pt_series df))%nat ∧
         ((∃ result, max_sharpe df = Ok result ∧
             optimize tickers = (Some result, started ++ [PfOptimise df])) ∨
          (∃ e, max_sharpe df = Raised e ∧
             optimize tickers =
               (None, started ++ [PfOptimise df; PfError e])))))))).
Proof.
  intros symbols started. unfold optimize_portfolio.
  subst started symbols.
  destruct (elements tickers) as [|s l] eqn:Hsym.
  { left. split; [by apply elements_empty_inv in Hsym; apply leibniz_equiv|done]. }
  right. split.
  { intros ->. by rewrite elements_empty in Hsym. }
  destruct (download_2y (s :: l)) as [raw_df|e]; [|left; eauto].
  right. eexists raw_df, _. split; [reflexivity|]. split; [reflexivity|].
  cbn [pt_dates dropna_all dropna_thresh].
  set (df := dropna_thresh _ _).
  change (pt_dates raw_df) with (pt_dates df).
  destruct (pt_dates df) as [|d ds] eqn:Hd; [left; split; [by left|done]|].
  destruct (pt_series df) as [|c [|c' cs]] eqn:Hs.
  - left. split; [right; simpl; lia | done].
  - left. split; [right; simpl; lia | done].
  - right. split; [done|]. split; [simpl; lia|].
    destruct (max_sharpe df) as [result|e]; [left|right]; eauto.
Qed.

End Optimize.

(** X18.  The optimiser is called at most once and only on a table with
    at least one date and at least two series, each of which has a price on
    at least four fifths of the dates (rounded down) and at least one
    price at all; and a result is returned only if that call succeeded. *)
Theorem optimiser_sees_only_well_covered_series
    (performance : Type) (download_2y : list string → outcome price_table)
    (max_sharpe : price_table → outcome performance) (tickers : gset string) :
  let run := optimize_portfolio performance download_2y max_sharpe tickers in
  Forall (λ ev, match ev with
                | PfOptimise df =>
                    pt_dates df ≠ [] ∧ (2 ≤ length (pt_series df))%nat ∧
                    Forall (λ c, (4 * length (pt_dates df) / 5
                                  ≤ count_notna c.2)%nat ∧
                                 (1 ≤ count_notna c.2)%nat)
                           (pt_series df) ∧
                    (run.1 = None ∨ ∃ result, run.1 = Some result ∧
                                              max_sharpe df = Ok result)
                | _ => True
                end) run.2 ∧
  match run.1 with
  | Some _ => ∃ df, PfOptimise df ∈ run.2
  | None => True
  end.
Proof.
  intros run. unfold run.
  assert (Hseries : ∀ raw_df,
    Forall (λ c, (4 * length (pt_dates raw_df) / 5 ≤ count_notna c.2)%nat ∧
                 (1 ≤ count_notna c.2)%nat)
      (pt_series (dropna_thresh (thresh_of (length (pt_dates raw_df)))
                    (dropna_all raw_df)))).
  { intros raw_df. apply Forall_forall. intros c Hc.
    unfold dropna_thresh, dropna_all in Hc. cbn [pt_series pt_dates] in Hc.
    apply list_elem_of_filter in Hc as [Hk Hc].
    apply list_elem_of_filter in Hc as [Hall _].
    unfold thresh_of in Hk. split; [exact Hk | lia]. }
  destruct (optimize_portfolio_cases performance download_2y max_sharpe tickers)
    as [[_ ->]|[_ [(e & _ & ->)|(raw_df & df & _ & -> & Hcases)]]].
  - split; [repeat constructor | done].
  - split; [repeat constructor | done].
  - destruct Hcases as [[_ ->]|(Hd & Hs & [(r & Hr & ->)|(e & He & ->)])].
    + split; [repeat constructor | done].
    + split.
      * simpl. do 2 (apply Forall_cons; split; [exact I|]).
        apply Forall_cons. split; [|repeat constructor].
        split; [exact Hd|]. split; [exact Hs|].
        split; [exact (Hseries raw_df)|].
        right. exists r. split; [reflexivity | exact Hr].
      * eexists. simpl. rewrite !elem_of_cons. auto.
    + split; [|done].
      simpl. do 2 (apply Forall_cons; split; [exact I|]).
      apply Forall_cons. split; [|repeat constructor].
      split; [exact Hd|]. split; [exact Hs|].
      split; [exact (Hseries raw_df)|]. by left.
Qed.
